(** * Secure session layer of connectedhomeip: a shallow embedding

    The development follows the header of the secure session manager,
    the header of the mDNS advertiser and the generated window-covering
    command parser.  Integers of the C++ code are [Z];
    byte buffers are [list byte]; a handle that may be null is an
    [option]. *)

From Stdlib Require Import ZArith Bool Lia.
From Stdlib.Strings Require Import Byte.
From stdpp Require Import base option list.

Local Open Scope Z_scope.

(** ** Constants the headers take from elsewhere

    [Transport::kUndefinedAdminId], [kAnyNodeId], [kMaxTagLen],
    [System::PacketBuffer::kMaxSize] and the pool size
    CHIP_CONFIG_PEER_CONNECTION_POOL_SIZE come from headers the session
    manager includes; their values are not fixed here, so they are fields
    of a class. *)
Class Platform := {
  kUndefinedAdminId : Z;
  kAnyNodeId : Z;
  kMaxTagLen : Z;
  PacketBuffer_kMaxSize : Z;
  CHIP_CONFIG_PEER_CONNECTION_POOL_SIZE : nat
}.

(** [size_t] is 64 bits wide on the targets of the controller. *)
Definition SIZE_MAX : Z := 2 ^ 64 - 1.
Definition UINT16_MAX : Z := 2 ^ 16 - 1.
Definition wrap_size_t (z : Z) : Z := z mod 2 ^ 64.

(** ** SecureSessionHandle *)

Record SecureSessionHandle := mkSecureSessionHandle {
  mPeerNodeId : Z;   (* NodeId, uint64_t *)
  mPeerKeyId : Z;    (* uint16_t *)
  mAdmin : Z         (* Transport::AdminId, uint16_t *)
}.

Module Session.
Section WithPlatform.
Context `{Platform}.

(** The default constructor. *)
Definition default : SecureSessionHandle :=
  mkSecureSessionHandle kAnyNodeId 0 kUndefinedAdminId.

Definition HasAdminId (h : SecureSessionHandle) : bool :=
  negb (mAdmin h =? kUndefinedAdminId).
End WithPlatform.

Definition GetAdminId (h : SecureSessionHandle) : Z := mAdmin h.

Definition SetAdminId (h : SecureSessionHandle) (adminId : Z) : SecureSessionHandle :=
  {| mPeerNodeId := mPeerNodeId h; mPeerKeyId := mPeerKeyId h; mAdmin := adminId |}.

(** [operator==]. *)
Definition eq_op (this that : SecureSessionHandle) : bool :=
  (mPeerNodeId this =? mPeerNodeId that)
  && (mPeerKeyId this =? mPeerKeyId that)
  && (mAdmin this =? mAdmin that).

Definition GetPeerNodeId (h : SecureSessionHandle) : Z := mPeerNodeId h.
Definition GetPeerKeyId (h : SecureSessionHandle) : Z := mPeerKeyId h.

(** The public operations of the class, as calls on an object: a call
    returns the object after the call and the value returned to the
    caller.  Six are the member functions declared in the public
    section.  The seventh is the assignment [h = that]: the class
    declares no copy or move operation, so the compiler gives it a public
    copy and move assignment, which for three scalar members both copy
    the members of [that] and return the object. *)
Inductive PublicCall :=
| CallHasAdminId
| CallGetAdminId
| CallSetAdminId (adminId : Z)
| CallEq (that : SecureSessionHandle)
| CallGetPeerNodeId
| CallGetPeerKeyId
| CallAssign (that : SecureSessionHandle).

Inductive Returned :=
| RetVoid
| RetBool (b : bool)
| RetInt (z : Z)
| RetThis.

Definition call `{Platform} (c : PublicCall) (h : SecureSessionHandle)
  : SecureSessionHandle * Returned :=
  match c with
  | CallHasAdminId => (h, RetBool (HasAdminId h))
  | CallGetAdminId => (h, RetInt (GetAdminId h))
  | CallSetAdminId a => (SetAdminId h a, RetVoid)
  | CallEq that => (h, RetBool (eq_op h that))
  | CallGetPeerNodeId => (h, RetInt (GetPeerNodeId h))
  | CallGetPeerKeyId => (h, RetInt (GetPeerKeyId h))
  | CallAssign that => (that, RetThis)
  end.

Definition is_SetAdminId (c : PublicCall) : bool :=
  match c with CallSetAdminId _ => true | _ => false end.

Definition is_assignment (c : PublicCall) : bool :=
  match c with CallAssign _ => true | _ => false end.
End Session.

(** ** Packet buffers

    Modelled from the spec: [System::PacketBuffer] and
    [System::PacketBufferHandle] are declared in a header that is not part
    of the embedded files.  The spec (section 3) describes a packet buffer
    as a variable-length byte sequence of bounded capacity, possibly
    chained to a next buffer, and a handle as the exclusive owner of one
    buffer or of nothing. *)
#[warnings="-register-all"]
Inductive PacketBuffer := mkPacketBuffer {
  alloc_size : Z;                 (* capacity of the block, reserve included *)
  reserved : Z;                   (* bytes kept free in front of the data *)
  payload : list byte;            (* the data *)
  next : option PacketBuffer      (* the rest of the chain *)
}.

(** [None] is the empty (null) handle. *)
Definition PacketBufferHandle := option PacketBuffer.

Definition DataLength (b : PacketBuffer) : Z := Z.of_nat (length (payload b)).
Definition MaxDataLength (b : PacketBuffer) : Z := alloc_size b - reserved b.
Definition AvailableDataLength (b : PacketBuffer) : Z := MaxDataLength b - DataLength b.
Definition HasChainedBuffer (b : PacketBuffer) : bool :=
  match next b with Some _ => true | None => false end.

(** Appending [bytes] to the data of a buffer, as a writer does after
    allocation. *)
Definition AppendData (b : PacketBuffer) (bytes : list byte) : PacketBuffer :=
  {| alloc_size := alloc_size b; reserved := reserved b;
     payload := payload b ++ bytes; next := next b |}.

(** The system allocator.  [PacketBufferHandle_New sz] is the outcome of
    [System::PacketBufferHandle::New(sz)] (default header reserve) at the
    time of the call; it is a field because the allocator and the state
    of its pool are outside the embedded files. *)
Class Allocator := {
  PacketBufferHandle_New : Z -> PacketBufferHandle;
  PacketBufferHandle_NewWithData : list byte -> Z -> Z -> PacketBufferHandle
}.

(** What the allocator's documentation promises of a buffer it returns:
    no data yet, room for the requested size, not chained. *)
Definition allocator_contract `{Allocator} : Prop :=
  forall sz b, PacketBufferHandle_New sz = Some b ->
    payload b = [] /\ sz <= MaxDataLength b /\ next b = None.

(** An allocator that always succeeds with a block of exactly the
    requested size, and one whose pool is exhausted. *)
Definition exact_allocator : Allocator := {|
  PacketBufferHandle_New sz := Some (mkPacketBuffer sz 0 [] None);
  PacketBufferHandle_NewWithData data sz extra :=
    Some (mkPacketBuffer (sz + extra) 0 data None)
|}.

Definition exhausted_allocator : Allocator := {|
  PacketBufferHandle_New _ := None;
  PacketBufferHandle_NewWithData _ _ _ := None
|}.

(** [PacketBufferHandle::CloneData].

    Modelled from the spec: "performs a byte-for-byte copy of a single
    (non-chained) buffer; fails on chained buffers or allocation failure",
    the failure being an empty handle. *)
Definition PacketBufferHandle_CloneData `{Allocator} (h : PacketBufferHandle)
  : PacketBufferHandle :=
  match h with
  | None => None     (* nothing to clone *)
  | Some b =>
      if HasChainedBuffer b then None
      else match PacketBufferHandle_New (alloc_size b) with
           | None => None
           | Some other =>
               Some {| alloc_size := alloc_size other; reserved := reserved b;
                       payload := payload b; next := None |}
           end
  end.

(** ** namespace MessagePacketBuffer *)
Module MessagePacketBuffer.
Section WithPlatform.
Context `{Platform} `{Allocator}.

Definition kMaxFooterSize : Z := kMaxTagLen.

(** [New]: both sides of the comparison are [size_t]; so is the sum. *)
Definition New (aAvailableSize : Z) : PacketBufferHandle :=
  if aAvailableSize >? wrap_size_t (PacketBuffer_kMaxSize - kMaxFooterSize)
  then None
  else PacketBufferHandle_New (wrap_size_t (aAvailableSize + kMaxFooterSize)).

Definition NewWithData (aData : list byte) (aDataSize : Z) : PacketBufferHandle :=
  PacketBufferHandle_NewWithData aData aDataSize kMaxFooterSize.

(** [HasFooterSpace] dereferences the handle, so it is a function of
    the buffer the handle owns. *)
Definition HasFooterSpace (aBuffer : PacketBuffer) : bool :=
  AvailableDataLength aBuffer >=? kMaxFooterSize.
End WithPlatform.
End MessagePacketBuffer.

(** What the compiler guarantees of the two constants: [kMaxFooterSize]
    is a [uint16_t], the [static_assert] of [New] holds, and [kMaxSize]
    fits the [size_t] it is compared with. *)
Definition platform_ok `{Platform} : Prop :=
  0 <= MessagePacketBuffer.kMaxFooterSize <= UINT16_MAX
  /\ MessagePacketBuffer.kMaxFooterSize < PacketBuffer_kMaxSize
  /\ PacketBuffer_kMaxSize <= SIZE_MAX.

(** ** EncryptedPacketBufferHandle

    The class inherits privately from [PacketBufferHandle]; the
    constructor [FromPlain] is its private converting constructor. *)
Record EncryptedPacketBufferHandle := FromPlain {
  plain_of : PacketBufferHandle
}.

Module Encrypted.
(** [EncryptedPacketBufferHandle()] *)
Definition empty : EncryptedPacketBufferHandle := FromPlain None.

Definition IsNull (e : EncryptedPacketBufferHandle) : bool :=
  match plain_of e with None => true | Some _ => false end.

(** The move constructor: the new handle, and what is left in the
    source. *)
Definition move (aBuffer : EncryptedPacketBufferHandle)
  : EncryptedPacketBufferHandle * EncryptedPacketBufferHandle :=
  (FromPlain (plain_of aBuffer), empty).

(** [CloneData] is not a [const] member: the copy, and the object
    after the call. *)
Definition CloneData `{Allocator} (e : EncryptedPacketBufferHandle)
  : EncryptedPacketBufferHandle * EncryptedPacketBufferHandle :=
  (FromPlain (PacketBufferHandle_CloneData (plain_of e)), e).
End Encrypted.

(** ** Buffers in memory

    Above, a handle is the buffer it owns.  That view cannot tell a copy
    of a buffer from the buffer itself; here a handle is a pointer.
    [Blocks] are the packet buffers the system allocator has handed out,
    the address of a block being its index; a handle holds the address of
    the block it owns, or nothing. *)
Module Memory.
Abbreviation Blocks := (list PacketBuffer).
Definition Pointer := option nat.

(** [EncryptedPacketBufferHandle], holding the pointer of its private
    base. *)
Record EncryptedPointer := Owning { address : Pointer }.

(** The block [PacketBufferHandle::CloneData] fills: the block the
    allocator returned, with the data of the buffer that is cloned. *)
Definition filled (other b : PacketBuffer) : PacketBuffer :=
  {| alloc_size := alloc_size other; reserved := reserved b;
     payload := payload b; next := None |}.

(** [PacketBufferHandle::CloneData] on memory.

    Modelled from the spec: "performs a byte-for-byte copy of a single
    (non-chained) buffer; fails on chained buffers or allocation
    failure", the failure being an empty handle.  The allocator decides
    whether there is a block; the block is placed at an address that was
    not in use. *)
Definition PacketBufferHandle_CloneData `{Allocator} (m : Blocks) (this : Pointer)
  : Pointer * Blocks :=
  match this with
  | None => (None, m)
  | Some a =>
      match m !! a with
      | None => (None, m)
      | Some b =>
          if HasChainedBuffer b then (None, m)
          else match PacketBufferHandle_New (alloc_size b) with
               | None => (None, m)
               | Some other => (Some (length m), m ++ [filled other b])
               end
      end
  end.

(** [EncryptedPacketBufferHandle::CloneData]: the clone of the base,
    wrapped by the private constructor. *)
Definition CloneData `{Allocator} (m : Blocks) (e : EncryptedPointer)
  : EncryptedPointer * Blocks :=
  let '(copy, m') := PacketBufferHandle_CloneData m (address e) in
  (Owning copy, m').

(** What a handle owns in a memory: the view of the sections above. *)
Definition owned (m : Blocks) (e : EncryptedPointer) : EncryptedPacketBufferHandle :=
  FromPlain (address e ≫= fun a => m !! a).
End Memory.

(** ** Code outside the manager

    What a program can do with the two handle types.  Code outside
    [SecureSessionMgr] owns plain handles, which it may fill with any
    bytes, and encrypted handles, on which it has the public members of
    the class only: the default constructor, the move constructor, the
    move assignment and [CloneData].  The manager, the only friend, can
    moreover use the private constructor and the private assignment from
    a plain handle.  A world is the variables of such a program, with the
    history of the buffers the manager converted. *)
Record World := mkWorld {
  plains : list PacketBufferHandle;
  encrypteds : list EncryptedPacketBufferHandle;
  converted : list PacketBuffer
}.

Inductive Action :=
| OutsideNewPlain (h : PacketBufferHandle)         (* a new plain handle, any content *)
| OutsideWritePlain (i : nat) (h : PacketBufferHandle)
| OutsideDefault                                   (* EncryptedPacketBufferHandle e; *)
| OutsideMoveConstruct (j : nat)                   (* EncryptedPacketBufferHandle e(std::move(e_j)); *)
| OutsideMoveAssign (i j : nat)                    (* e_i = std::move(e_j); *)
| OutsideCloneData (j : nat)                       (* auto e = e_j.CloneData(); *)
| ManagerConstruct (j : nat)                       (* EncryptedPacketBufferHandle e(std::move(p_j)); *)
| ManagerAssign (i j : nat).                       (* e_i = std::move(p_j); *)

Definition record_converted (h : PacketBufferHandle) (log : list PacketBuffer)
  : list PacketBuffer :=
  match h with Some b => b :: log | None => log end.

(** An action on a variable that does not exist is not a program; it
    leaves the world as it is. *)
Definition act `{Allocator} (w : World) (a : Action) : World :=
  match a with
  | OutsideNewPlain h =>
      mkWorld (plains w ++ [h]) (encrypteds w) (converted w)
  | OutsideWritePlain i h =>
      mkWorld (<[i:=h]> (plains w)) (encrypteds w) (converted w)
  | OutsideDefault =>
      mkWorld (plains w) (encrypteds w ++ [Encrypted.empty]) (converted w)
  | OutsideMoveConstruct j =>
      match encrypteds w !! j with
      | Some e =>
          let '(fresh, source) := Encrypted.move e in
          mkWorld (plains w) (<[j:=source]> (encrypteds w) ++ [fresh]) (converted w)
      | None => w
      end
  | OutsideMoveAssign i j =>
      match encrypteds w !! i, encrypteds w !! j with
      | Some _, Some e =>
          let '(fresh, source) := Encrypted.move e in
          mkWorld (plains w) (<[j:=source]> (<[i:=fresh]> (encrypteds w))) (converted w)
      | _, _ => w
      end
  | OutsideCloneData j =>
      match encrypteds w !! j with
      | Some e =>
          let '(copy, source) := Encrypted.CloneData e in
          mkWorld (plains w) (<[j:=source]> (encrypteds w) ++ [copy]) (converted w)
      | None => w
      end
  | ManagerConstruct j =>
      match plains w !! j with
      | Some h =>
          mkWorld (<[j:=None]> (plains w)) (encrypteds w ++ [FromPlain h])
                  (record_converted h (converted w))
      | None => w
      end
  | ManagerAssign i j =>
      match encrypteds w !! i, plains w !! j with
      | Some _, Some h =>
          mkWorld (<[j:=None]> (plains w)) (<[i:=FromPlain h]> (encrypteds w))
                  (record_converted h (converted w))
      | _, _ => w
      end
  end.

Definition run `{Allocator} (w : World) (prog : list Action) : World :=
  fold_left act prog w.

Definition start : World := mkWorld [] [] [].

(** An encrypted handle is accounted for when it is empty or carries the
    bytes of a buffer the manager converted. *)
Definition accounted (log : list PacketBuffer) (e : EncryptedPacketBufferHandle) : Prop :=
  match plain_of e with
  | None => True
  | Some b => exists c, c ∈ log /\ payload b = payload c
  end.

(** ** Errors, addresses, headers

    [CHIP_NO_ERROR] and [CHIP_ERROR_NO_MEMORY] are named in the header;
    the other conditions are the taxonomy of the spec (section 7, and the
    authentication error of section 8).

    Modelled from the spec: the packet and payload headers, the peer
    address and the state of a peer connection are types of other
    headers; their fields here are the ones the spec's send and receive
    paths read. *)
Inductive CHIP_ERROR :=
| CHIP_NO_ERROR
| CHIP_ERROR_NO_MEMORY
| NotInitialized
| AlreadyInitialized
| ResourceExhausted
| NoSession
| EncryptionFailed
| AuthenticationFailed
| DuplicateOrStale
| MalformedPacket
| KeyDerivationFailed.

Definition PeerAddress := Z.

Record PacketHeader := mkPacketHeader {
  hdrMessageCounter : Z;
  hdrKeyId : Z;
  hdrEncrypted : bool
}.

Definition PayloadHeader := list byte.

Record PeerConnectionState := mkPeerConnectionState {
  identity : SecureSessionHandle;
  peerAddress : PeerAddress;
  sendKey : Z;
  receiveKey : Z;
  lastActivityTimestamp : Z;
  sendCounter : Z;
  receiveCounter : Z
}.

(** ** SecureSessionMgrDelegate

    The callbacks of the class, as an interface over the state [D] of the
    object that implements it.  The manager pointer passed to the
    callbacks gives read access only and is left out. *)
Class SecureSessionMgrDelegate (D : Type) := {
  OnMessageReceived :
    PacketHeader -> PayloadHeader -> SecureSessionHandle -> PeerAddress ->
    PacketBufferHandle -> D -> D;
  OnReceiveError : CHIP_ERROR -> PeerAddress -> D -> D;
  OnNewConnection : SecureSessionHandle -> D -> D;
  OnConnectionExpired : SecureSessionHandle -> D -> D;
  QueueReceivedMessageAndSync :
    option PeerConnectionState -> PacketBufferHandle -> D -> CHIP_ERROR * D
}.

(** The bodies the class itself gives to its virtual functions. *)
Definition base_delegate (D : Type) : SecureSessionMgrDelegate D := {|
  OnMessageReceived _ _ _ _ _ d := d;
  OnReceiveError _ _ d := d;
  OnNewConnection _ d := d;
  OnConnectionExpired _ d := d;
  QueueReceivedMessageAndSync _ _ d := (CHIP_NO_ERROR, d)
|}.

(** A class derived from it overrides what it is interested in; here one
    that counts the connections and leaves the other four callbacks to
    the base class. *)
Definition counting_delegate : SecureSessionMgrDelegate Z :=
  let base := base_delegate Z in {|
  OnMessageReceived := @OnMessageReceived _ base;
  OnReceiveError := @OnReceiveError _ base;
  OnNewConnection _ n := n + 1;
  OnConnectionExpired := @OnConnectionExpired _ base;
  QueueReceivedMessageAndSync := @QueueReceivedMessageAndSync _ base
|}.

(** ** mDNS advertising parameters *)
Module Mdns.
Definition kMdnsPort : Z := 5353.
Definition kMaxMacSize : nat := 8.

(** [chip::ByteSpan]: the bytes a span views. *)
Definition ByteSpan := list byte.

Record BaseAdvertisingParams := mkBaseAdvertisingParams {
  mPort : Z;                     (* uint16_t *)
  mEnableIPv4 : bool;
  mMacStorage : list byte;       (* uint8_t [kMaxMacSize] *)
  mMacLength : nat               (* size_t *)
}.

(** The member initialisers; [CHIP_PORT] is a configuration macro. *)
Definition initial (CHIP_PORT : Z) : BaseAdvertisingParams :=
  mkBaseAdvertisingParams CHIP_PORT true (replicate kMaxMacSize x00) 0.

(** [memcpy dst src n] on arrays held as lists: the first [n] bytes of
    [dst] become those of [src]. *)
Definition memcpy (dst src : list byte) (n : nat) : list byte :=
  take n src ++ drop n dst.

Definition SetPort (p : BaseAdvertisingParams) (port : Z) : BaseAdvertisingParams :=
  mkBaseAdvertisingParams port (mEnableIPv4 p) (mMacStorage p) (mMacLength p).
Definition GetPort (p : BaseAdvertisingParams) : Z := mPort p.

Definition EnableIpV4 (p : BaseAdvertisingParams) (enable : bool) : BaseAdvertisingParams :=
  mkBaseAdvertisingParams (mPort p) enable (mMacStorage p) (mMacLength p).
Definition IsIPv4Enabled (p : BaseAdvertisingParams) : bool := mEnableIPv4 p.

Definition SetMac (p : BaseAdvertisingParams) (mac : ByteSpan) : BaseAdvertisingParams :=
  let len := Nat.min (length mac) kMaxMacSize in
  mkBaseAdvertisingParams (mPort p) (mEnableIPv4 p)
    (memcpy (mMacStorage p) mac len) len.

Definition GetMac (p : BaseAdvertisingParams) : ByteSpan :=
  take (mMacLength p) (mMacStorage p).

(** The array keeps its size. *)
Definition well_formed (p : BaseAdvertisingParams) : Prop :=
  length (mMacStorage p) = kMaxMacSize /\ (mMacLength p <= kMaxMacSize)%nat.

(** A chain of setter calls on the base class, as code writes it:
    [params.SetPort(p).SetMac(m)...]. *)
Inductive BaseSetter :=
| DoSetPort (port : Z)
| DoEnableIpV4 (enable : bool)
| DoSetMac (mac : ByteSpan).

Definition base_apply (p : BaseAdvertisingParams) (s : BaseSetter) : BaseAdvertisingParams :=
  match s with
  | DoSetPort port => SetPort p port
  | DoEnableIpV4 enable => EnableIpV4 p enable
  | DoSetMac mac => SetMac p mac
  end.

(** [enum class CommssionAdvertiseMode] *)
Inductive CommssionAdvertiseMode := kCommissioning | kCommissionable.

(** [CommissionAdvertisingParameters]: the base subobject and the members
    of the derived class.  [Optional<T>] is [option]; the pairing
    instruction is a [const char *], kept as the pointer it is. *)
Record CommissionAdvertisingParameters := mkCommissionAdvertisingParameters {
  commission_base : BaseAdvertisingParams;
  mShortDiscriminator : Z;           (* uint8_t *)
  mLongDiscriminator : Z;            (* uint16_t *)
  mMode : CommssionAdvertiseMode;
  mVendorId : option Z;
  mProductId : option Z;
  mPairingInstr : option Z;
  mPairingHint : option Z
}.

Module Commission.
Definition initial (CHIP_PORT : Z) : CommissionAdvertisingParameters :=
  mkCommissionAdvertisingParameters (Mdns.initial CHIP_PORT) 0 0 kCommissioning
    None None None None.

(** The setters of the base class return the object as the derived
    class: they change the base subobject of the same object. *)
Definition on_base (f : BaseAdvertisingParams -> BaseAdvertisingParams)
    (p : CommissionAdvertisingParameters) : CommissionAdvertisingParameters :=
  mkCommissionAdvertisingParameters (f (commission_base p))
    (mShortDiscriminator p) (mLongDiscriminator p) (mMode p)
    (mVendorId p) (mProductId p) (mPairingInstr p) (mPairingHint p).

Definition SetShortDiscriminator (p : CommissionAdvertisingParameters) (discriminator : Z) :=
  mkCommissionAdvertisingParameters (commission_base p)
    discriminator (mLongDiscriminator p) (mMode p)
    (mVendorId p) (mProductId p) (mPairingInstr p) (mPairingHint p).
Definition GetShortDiscriminator (p : CommissionAdvertisingParameters) : Z :=
  mShortDiscriminator p.

Definition SetLongDiscrimininator (p : CommissionAdvertisingParameters) (discriminator : Z) :=
  mkCommissionAdvertisingParameters (commission_base p)
    (mShortDiscriminator p) discriminator (mMode p)
    (mVendorId p) (mProductId p) (mPairingInstr p) (mPairingHint p).
Definition GetLongDiscriminator (p : CommissionAdvertisingParameters) : Z :=
  mLongDiscriminator p.

Definition SetVendorId (p : CommissionAdvertisingParameters) (vendorId : option Z) :=
  mkCommissionAdvertisingParameters (commission_base p)
    (mShortDiscriminator p) (mLongDiscriminator p) (mMode p)
    vendorId (mProductId p) (mPairingInstr p) (mPairingHint p).
Definition GetVendorId (p : CommissionAdvertisingParameters) : option Z := mVendorId p.

Definition SetProductId (p : CommissionAdvertisingParameters) (productId : option Z) :=
  mkCommissionAdvertisingParameters (commission_base p)
    (mShortDiscriminator p) (mLongDiscriminator p) (mMode p)
    (mVendorId p) productId (mPairingInstr p) (mPairingHint p).
Definition GetProductId (p : CommissionAdvertisingParameters) : option Z := mProductId p.

Definition SetPairingInstr (p : CommissionAdvertisingParameters) (pairingInstr : option Z) :=
  mkCommissionAdvertisingParameters (commission_base p)
    (mShortDiscriminator p) (mLongDiscriminator p) (mMode p)
    (mVendorId p) (mProductId p) pairingInstr (mPairingHint p).
Definition GetPairingInstr (p : CommissionAdvertisingParameters) : option Z :=
  mPairingInstr p.

Definition SetPairingHint (p : CommissionAdvertisingParameters) (pairingHint : option Z) :=
  mkCommissionAdvertisingParameters (commission_base p)
    (mShortDiscriminator p) (mLongDiscriminator p) (mMode p)
    (mVendorId p) (mProductId p) (mPairingInstr p) pairingHint.
Definition GetPairingHint (p : CommissionAdvertisingParameters) : option Z :=
  mPairingHint p.

Definition SetCommissionAdvertiseMode (p : CommissionAdvertisingParameters)
    (mode : CommssionAdvertiseMode) :=
  mkCommissionAdvertisingParameters (commission_base p)
    (mShortDiscriminator p) (mLongDiscriminator p) mode
    (mVendorId p) (mProductId p) (mPairingInstr p) (mPairingHint p).
Definition GetCommissionAdvertiseMode (p : CommissionAdvertisingParameters)
  : CommssionAdvertiseMode := mMode p.

(** The setter calls of a chain, and the getters that read the object. *)
Inductive Setter :=
| OnBase (s : BaseSetter)
| DoSetShortDiscriminator (discriminator : Z)
| DoSetLongDiscrimininator (discriminator : Z)
| DoSetVendorId (vendorId : option Z)
| DoSetProductId (productId : option Z)
| DoSetPairingInstr (pairingInstr : option Z)
| DoSetPairingHint (pairingHint : option Z)
| DoSetCommissionAdvertiseMode (mode : CommssionAdvertiseMode).

Definition apply (p : CommissionAdvertisingParameters) (s : Setter)
  : CommissionAdvertisingParameters :=
  match s with
  | OnBase b => on_base (fun base => base_apply base b) p
  | DoSetShortDiscriminator d => SetShortDiscriminator p d
  | DoSetLongDiscrimininator d => SetLongDiscrimininator p d
  | DoSetVendorId v => SetVendorId p v
  | DoSetProductId v => SetProductId p v
  | DoSetPairingInstr v => SetPairingInstr p v
  | DoSetPairingHint v => SetPairingHint p v
  | DoSetCommissionAdvertiseMode m => SetCommissionAdvertiseMode p m
  end.

Inductive Getter :=
| AskPort | AskIPv4Enabled | AskMac
| AskShortDiscriminator | AskLongDiscriminator | AskVendorId | AskProductId
| AskPairingInstr | AskPairingHint | AskCommissionAdvertiseMode.

Inductive Value :=
| VInt (z : Z)
| VBool (b : bool)
| VBytes (l : list byte)
| VOptional (o : option Z)
| VMode (m : CommssionAdvertiseMode).

Definition get (g : Getter) (p : CommissionAdvertisingParameters) : Value :=
  match g with
  | AskPort => VInt (GetPort (commission_base p))
  | AskIPv4Enabled => VBool (IsIPv4Enabled (commission_base p))
  | AskMac => VBytes (GetMac (commission_base p))
  | AskShortDiscriminator => VInt (GetShortDiscriminator p)
  | AskLongDiscriminator => VInt (GetLongDiscriminator p)
  | AskVendorId => VOptional (GetVendorId p)
  | AskProductId => VOptional (GetProductId p)
  | AskPairingInstr => VOptional (GetPairingInstr p)
  | AskPairingHint => VOptional (GetPairingHint p)
  | AskCommissionAdvertiseMode => VMode (GetCommissionAdvertiseMode p)
  end.

(** The getter that reads what a setter wrote. *)
Definition reader (s : Setter) : Getter :=
  match s with
  | OnBase (DoSetPort _) => AskPort
  | OnBase (DoEnableIpV4 _) => AskIPv4Enabled
  | OnBase (DoSetMac _) => AskMac
  | DoSetShortDiscriminator _ => AskShortDiscriminator
  | DoSetLongDiscrimininator _ => AskLongDiscriminator
  | DoSetVendorId _ => AskVendorId
  | DoSetProductId _ => AskProductId
  | DoSetPairingInstr _ => AskPairingInstr
  | DoSetPairingHint _ => AskPairingHint
  | DoSetCommissionAdvertiseMode _ => AskCommissionAdvertiseMode
  end.

(** The argument of a setter call, as its getter is to return it. *)
Definition written (s : Setter) : Value :=
  match s with
  | OnBase (DoSetPort port) => VInt port
  | OnBase (DoEnableIpV4 enable) => VBool enable
  | OnBase (DoSetMac mac) => VBytes (take kMaxMacSize mac)
  | DoSetShortDiscriminator d => VInt d
  | DoSetLongDiscrimininator d => VInt d
  | DoSetVendorId v => VOptional v
  | DoSetProductId v => VOptional v
  | DoSetPairingInstr v => VOptional v
  | DoSetPairingHint v => VOptional v
  | DoSetCommissionAdvertiseMode m => VMode m
  end.
End Commission.

(** [OperationalAdvertisingParameters]; [PeerId] is a class of another
    header. *)
Record OperationalAdvertisingParameters (PeerId : Type) :=
  mkOperationalAdvertisingParameters {
  operational_base : BaseAdvertisingParams;
  mPeerId : PeerId;
  mCrmpRetryIntervalIdle : Z;        (* uint32_t *)
  mCrmpRetryIntervalActive : Z       (* uint32_t *)
}.
Arguments mkOperationalAdvertisingParameters {PeerId}.
Arguments operational_base {PeerId}.
Arguments mPeerId {PeerId}.
Arguments mCrmpRetryIntervalIdle {PeerId}.
Arguments mCrmpRetryIntervalActive {PeerId}.

Module Operational.
Section WithPeerId.
Context {PeerId : Type}.

Definition on_base (f : BaseAdvertisingParams -> BaseAdvertisingParams)
    (p : OperationalAdvertisingParameters PeerId) : OperationalAdvertisingParameters PeerId :=
  mkOperationalAdvertisingParameters (f (operational_base p)) (mPeerId p)
    (mCrmpRetryIntervalIdle p) (mCrmpRetryIntervalActive p).

Definition SetPeerId (p : OperationalAdvertisingParameters PeerId) (peerId : PeerId) :=
  mkOperationalAdvertisingParameters (operational_base p) peerId
    (mCrmpRetryIntervalIdle p) (mCrmpRetryIntervalActive p).
Definition GetPeerId (p : OperationalAdvertisingParameters PeerId) : PeerId := mPeerId p.

Definition SetCRMPRetryIntervals (p : OperationalAdvertisingParameters PeerId)
    (intervalIdle intervalActive : Z) :=
  mkOperationalAdvertisingParameters (operational_base p) (mPeerId p)
    intervalIdle intervalActive.

(** The two reference parameters of [GetCRMPRetryIntervals], in the order
    of its signature. *)
Definition GetCRMPRetryIntervals (p : OperationalAdvertisingParameters PeerId) : Z * Z :=
  (mCrmpRetryIntervalIdle p, mCrmpRetryIntervalActive p).

Inductive Setter :=
| OnBase (s : BaseSetter)
| DoSetPeerId (peerId : PeerId)
| DoSetCRMPRetryIntervals (intervalIdle intervalActive : Z).

Definition apply (p : OperationalAdvertisingParameters PeerId) (s : Setter) :=
  match s with
  | OnBase b => on_base (fun base => base_apply base b) p
  | DoSetPeerId peerId => SetPeerId p peerId
  | DoSetCRMPRetryIntervals i a => SetCRMPRetryIntervals p i a
  end.

Definition sets_intervals (s : Setter) : bool :=
  match s with DoSetCRMPRetryIntervals _ _ => true | _ => false end.
Definition sets_peer (s : Setter) : bool :=
  match s with DoSetPeerId _ => true | _ => false end.
End WithPeerId.
End Operational.
End Mdns.

(** ** The generated command parser of the window app *)
Inductive EmberAfStatus :=
| EMBER_ZCL_STATUS_SUCCESS
| EMBER_ZCL_STATUS_UNSUP_MANUF_CLUSTER_COMMAND
| EMBER_ZCL_STATUS_UNSUP_COMMAND
| EMBER_ZCL_STATUS_UNSUPPORTED_CLUSTER
| EMBER_ZCL_STATUS_MALFORMED_COMMAND.

Record EmberApsFrame := mkEmberApsFrame {
  clusterId : Z;
  destinationEndpoint : Z
}.

Record EmberAfClusterCommand := mkEmberAfClusterCommand {
  apsFrame : EmberApsFrame;
  buffer : list byte;
  bufLen : Z;                 (* uint16_t *)
  mfgSpecific : bool;
  mfgCode : Z;
  commandId : Z;              (* uint8_t *)
  payloadStartIndex : Z;
  direction : Z               (* uint8_t *)
}.

(** The identifiers of cluster-id.h and command-id.h, the accessors of
    app/util/util.h and the cluster callbacks of callback.h are outside
    the generated file.  A callback answers whether it handled the
    command. *)
Class Zcl := {
  ZCL_DIRECTION_CLIENT_TO_SERVER : Z;
  ZCL_DIRECTION_SERVER_TO_CLIENT : Z;
  ZCL_WINDOW_COVERING_CLUSTER_ID : Z;
  ZCL_WINDOW_COVERING_DOWN_CLOSE_COMMAND_ID : Z;
  ZCL_WINDOW_COVERING_GO_TO_LIFT_PERCENTAGE_COMMAND_ID : Z;
  ZCL_WINDOW_COVERING_GO_TO_LIFT_VALUE_COMMAND_ID : Z;
  ZCL_WINDOW_COVERING_GO_TO_TILT_PERCENTAGE_COMMAND_ID : Z;
  ZCL_WINDOW_COVERING_GO_TO_TILT_VALUE_COMMAND_ID : Z;
  ZCL_WINDOW_COVERING_STOP_COMMAND_ID : Z;
  ZCL_WINDOW_COVERING_UP_OPEN_COMMAND_ID : Z;
  emberAfContainsClientWithMfgCode : Z -> Z -> Z -> bool;
  emberAfContainsServerWithMfgCode : Z -> Z -> Z -> bool;
  emberAfGetInt8u : list byte -> Z -> Z -> Z;
  emberAfGetInt16u : list byte -> Z -> Z -> Z;
  WindowCoveringDownCloseCallback : bool;
  WindowCoveringGoToLiftPercentageCallback : Z -> bool;
  WindowCoveringGoToLiftValueCallback : Z -> bool;
  WindowCoveringGoToTiltPercentageCallback : Z -> bool;
  WindowCoveringGoToTiltValueCallback : Z -> bool;
  WindowCoveringStopCallback : bool;
  WindowCoveringUpOpenCallback : bool
}.

(** The case labels of a [switch] are pairwise distinct. *)
Definition command_ids `{Zcl} : list Z :=
  [ ZCL_WINDOW_COVERING_DOWN_CLOSE_COMMAND_ID;
    ZCL_WINDOW_COVERING_GO_TO_LIFT_PERCENTAGE_COMMAND_ID;
    ZCL_WINDOW_COVERING_GO_TO_LIFT_VALUE_COMMAND_ID;
    ZCL_WINDOW_COVERING_GO_TO_TILT_PERCENTAGE_COMMAND_ID;
    ZCL_WINDOW_COVERING_GO_TO_TILT_VALUE_COMMAND_ID;
    ZCL_WINDOW_COVERING_STOP_COMMAND_ID;
    ZCL_WINDOW_COVERING_UP_OPEN_COMMAND_ID ].

(** The cluster callbacks a parse invoked, in order, with their
    arguments. *)
Inductive Invocation :=
| DownClose
| GoToLiftPercentage (percentageLiftValue : Z)
| GoToLiftValue (liftValue : Z)
| GoToTiltPercentage (percentageTiltValue : Z)
| GoToTiltValue (tiltValue : Z)
| Stop
| UpOpen.

Module CommandHandler.
Section WithZcl.
Context `{Zcl}.

(** What the callback of an invocation answered. *)
Definition answer (i : Invocation) : bool :=
  match i with
  | DownClose => WindowCoveringDownCloseCallback
  | GoToLiftPercentage v => WindowCoveringGoToLiftPercentageCallback v
  | GoToLiftValue v => WindowCoveringGoToLiftValueCallback v
  | GoToTiltPercentage v => WindowCoveringGoToTiltPercentageCallback v
  | GoToTiltValue v => WindowCoveringGoToTiltValueCallback v
  | Stop => WindowCoveringStopCallback
  | UpOpen => WindowCoveringUpOpenCallback
  end.

Definition status (wasHandled clusterExists mfgSpecific : bool) : EmberAfStatus :=
  if wasHandled then EMBER_ZCL_STATUS_SUCCESS
  else if mfgSpecific then EMBER_ZCL_STATUS_UNSUP_MANUF_CLUSTER_COMMAND
  else if clusterExists then EMBER_ZCL_STATUS_UNSUP_COMMAND
  else EMBER_ZCL_STATUS_UNSUPPORTED_CLUSTER.

(** A case that ran to its [break]: the callback invoked and its
    answer. *)
Definition handled (cmd : EmberAfClusterCommand) (i : Invocation) (wasHandled : bool)
  : EmberAfStatus * list Invocation :=
  (status wasHandled true (mfgSpecific cmd), [i]).

(** [payloadOffset + 1] and [payloadOffset + 2] are computed in [int],
    where they cannot overflow. *)
Definition emberAfWindowCoveringClusterServerCommandParse (cmd : EmberAfClusterCommand)
  : EmberAfStatus * list Invocation :=
  if negb (mfgSpecific cmd) then
    let payloadOffset := payloadStartIndex cmd in
    if commandId cmd =? ZCL_WINDOW_COVERING_DOWN_CLOSE_COMMAND_ID then
      handled cmd DownClose WindowCoveringDownCloseCallback
    else if commandId cmd =? ZCL_WINDOW_COVERING_GO_TO_LIFT_PERCENTAGE_COMMAND_ID then
      if bufLen cmd <? payloadOffset + 1 then (EMBER_ZCL_STATUS_MALFORMED_COMMAND, [])
      else
        let percentageLiftValue := emberAfGetInt8u (buffer cmd) payloadOffset (bufLen cmd) in
        handled cmd (GoToLiftPercentage percentageLiftValue)
                (WindowCoveringGoToLiftPercentageCallback percentageLiftValue)
    else if commandId cmd =? ZCL_WINDOW_COVERING_GO_TO_LIFT_VALUE_COMMAND_ID then
      if bufLen cmd <? payloadOffset + 2 then (EMBER_ZCL_STATUS_MALFORMED_COMMAND, [])
      else
        let liftValue := emberAfGetInt16u (buffer cmd) payloadOffset (bufLen cmd) in
        handled cmd (GoToLiftValue liftValue) (WindowCoveringGoToLiftValueCallback liftValue)
    else if commandId cmd =? ZCL_WINDOW_COVERING_GO_TO_TILT_PERCENTAGE_COMMAND_ID then
      if bufLen cmd <? payloadOffset + 1 then (EMBER_ZCL_STATUS_MALFORMED_COMMAND, [])
      else
        let percentageTiltValue := emberAfGetInt8u (buffer cmd) payloadOffset (bufLen cmd) in
        handled cmd (GoToTiltPercentage percentageTiltValue)
                (WindowCoveringGoToTiltPercentageCallback percentageTiltValue)
    else if commandId cmd =? ZCL_WINDOW_COVERING_GO_TO_TILT_VALUE_COMMAND_ID then
      if bufLen cmd <? payloadOffset + 2 then (EMBER_ZCL_STATUS_MALFORMED_COMMAND, [])
      else
        let tiltValue := emberAfGetInt16u (buffer cmd) payloadOffset (bufLen cmd) in
        handled cmd (GoToTiltValue tiltValue) (WindowCoveringGoToTiltValueCallback tiltValue)
    else if commandId cmd =? ZCL_WINDOW_COVERING_STOP_COMMAND_ID then
      handled cmd Stop WindowCoveringStopCallback
    else if commandId cmd =? ZCL_WINDOW_COVERING_UP_OPEN_COMMAND_ID then
      handled cmd UpOpen WindowCoveringUpOpenCallback
    else (status false true (mfgSpecific cmd), [])
  else (status false true (mfgSpecific cmd), []).

(** The main controller.  The two directions are compared after a cast
    to [uint8_t]; the [switch] of the server-to-client branch has no
    case. *)
Definition uint8_t (z : Z) : Z := z mod 256.

Definition emberAfClusterSpecificCommandParse (cmd : EmberAfClusterCommand)
  : EmberAfStatus * list Invocation :=
  let result := status false false (mfgSpecific cmd) in
  if (direction cmd =? uint8_t ZCL_DIRECTION_SERVER_TO_CLIENT)
     && emberAfContainsClientWithMfgCode (destinationEndpoint (apsFrame cmd))
          (clusterId (apsFrame cmd)) (mfgCode cmd)
  then (result, [])
  else if (direction cmd =? uint8_t ZCL_DIRECTION_CLIENT_TO_SERVER)
     && emberAfContainsServerWithMfgCode (destinationEndpoint (apsFrame cmd))
          (clusterId (apsFrame cmd)) (mfgCode cmd)
  then
    if clusterId (apsFrame cmd) =? ZCL_WINDOW_COVERING_CLUSTER_ID
    then emberAfWindowCoveringClusterServerCommandParse cmd
    else (result, [])
  else (result, []).
End WithZcl.
End CommandHandler.

(** ** A concrete configuration

    The values of a Linux build: the undefined admin id is [UINT16_MAX],
    the wildcard node id is all ones, the AEAD tag has 16 bytes. *)
Definition linux_platform : Platform := {|
  kUndefinedAdminId := 65535;
  kAnyNodeId := 2 ^ 64 - 1;
  kMaxTagLen := 16;
  PacketBuffer_kMaxSize := 1280;
  CHIP_CONFIG_PEER_CONNECTION_POOL_SIZE := 16
|}.

(** The command identifiers of the window-covering cluster in the ZCL. *)
Definition zcl_ids : Zcl := {|
  ZCL_DIRECTION_CLIENT_TO_SERVER := 0;
  ZCL_DIRECTION_SERVER_TO_CLIENT := 1;
  ZCL_WINDOW_COVERING_CLUSTER_ID := 258;
  ZCL_WINDOW_COVERING_DOWN_CLOSE_COMMAND_ID := 1;
  ZCL_WINDOW_COVERING_GO_TO_LIFT_PERCENTAGE_COMMAND_ID := 5;
  ZCL_WINDOW_COVERING_GO_TO_LIFT_VALUE_COMMAND_ID := 4;
  ZCL_WINDOW_COVERING_GO_TO_TILT_PERCENTAGE_COMMAND_ID := 8;
  ZCL_WINDOW_COVERING_GO_TO_TILT_VALUE_COMMAND_ID := 7;
  ZCL_WINDOW_COVERING_STOP_COMMAND_ID := 2;
  ZCL_WINDOW_COVERING_UP_OPEN_COMMAND_ID := 0;
  emberAfContainsClientWithMfgCode _ _ _ := false;
  emberAfContainsServerWithMfgCode _ _ _ := true;
  emberAfGetInt8u buf i _ :=
    Z.of_N (Byte.to_N (nth (Z.to_nat i) buf x00));
  emberAfGetInt16u buf i _ :=
    Z.of_N (Byte.to_N (nth (Z.to_nat i) buf x00))
    + 256 * Z.of_N (Byte.to_N (nth (Z.to_nat (i + 1)) buf x00));
  WindowCoveringDownCloseCallback := true;
  WindowCoveringGoToLiftPercentageCallback _ := true;
  WindowCoveringGoToLiftValueCallback _ := true;
  WindowCoveringGoToTiltPercentageCallback _ := true;
  WindowCoveringGoToTiltValueCallback _ := true;
  WindowCoveringStopCallback := true;
  WindowCoveringUpOpenCallback := true
|}.

(** * Properties *)

(** ** Session handles *)

Lemma eq_op_true (a b : SecureSessionHandle) :
  Session.eq_op a b = true <->
  mPeerNodeId a = mPeerNodeId b /\ mPeerKeyId a = mPeerKeyId b /\ mAdmin a = mAdmin b.
Proof.
  unfold Session.eq_op.
  rewrite !andb_true_iff, !Z.eqb_eq. tauto.
Qed.

Lemma eq_op_refl (a : SecureSessionHandle) : Session.eq_op a a = true.
Proof. apply eq_op_true. auto. Qed.

(** C2: [a == b] holds exactly when the peer node ids, the peer key ids
    and the admin ids are equal; the undefined admin id takes part in the
    comparison like any other value, so a handle without admin equals
    only handles without admin. *)
Theorem SecureSessionHandle_equality `{Platform} (a b : SecureSessionHandle) :
  (Session.eq_op a b = true <->
   Session.GetPeerNodeId a = Session.GetPeerNodeId b
   /\ Session.GetPeerKeyId a = Session.GetPeerKeyId b
   /\ Session.GetAdminId a = Session.GetAdminId b)
  /\ (Session.eq_op (Session.SetAdminId a kUndefinedAdminId) b = true <->
      Session.GetPeerNodeId a = Session.GetPeerNodeId b
      /\ Session.GetPeerKeyId a = Session.GetPeerKeyId b
      /\ Session.HasAdminId b = false).
Proof.
  split; [apply eq_op_true |].
  rewrite eq_op_true. unfold Session.HasAdminId, Session.GetPeerNodeId,
    Session.GetPeerKeyId. simpl.
  rewrite negb_false_iff, Z.eqb_eq.
  intuition congruence.
Qed.

(** The statement that no public operation but [SetAdminId] changes a
    field of a handle, and that the peer node id and the peer key id
    never change. *)
Definition only_SetAdminId_mutates : Prop :=
  forall (P : Platform) (h : SecureSessionHandle) (c : Session.PublicCall),
    Session.GetPeerNodeId (fst (Session.call c h)) = Session.GetPeerNodeId h
    /\ Session.GetPeerKeyId (fst (Session.call c h)) = Session.GetPeerKeyId h
    /\ (Session.is_SetAdminId c = false -> fst (Session.call c h) = h).

(** C8 as stated fails: the assignment [h = that], public because the
    class declares no copy operation, gives [h] the peer node id and the
    peer key id of [that]. *)
Lemma assignment_overwrites_peer :
  ~ only_SetAdminId_mutates.
Proof.
  intros Hall.
  destruct (Hall linux_platform (mkSecureSessionHandle 7 1 3)
                 (Session.CallAssign (mkSecureSessionHandle 9 2 4))) as (Hnode & _).
  discriminate Hnode.
Qed.

(** C8, amended: [SetAdminId] changes the admin id and leaves the peer
    node id and the peer key id as they were; no other member function
    declared in the class changes any field; the one other public
    operation that changes a handle is the implicitly declared
    assignment, after which the handle has the three fields of its
    argument. *)
Theorem SetAdminId_only_declared_mutator `{Platform} (h : SecureSessionHandle) (a : Z) :
  Session.GetPeerNodeId (Session.SetAdminId h a) = Session.GetPeerNodeId h
  /\ Session.GetPeerKeyId (Session.SetAdminId h a) = Session.GetPeerKeyId h
  /\ Session.GetAdminId (Session.SetAdminId h a) = a
  /\ (forall c : Session.PublicCall,
        Session.is_assignment c = false ->
        Session.GetPeerNodeId (fst (Session.call c h)) = Session.GetPeerNodeId h
        /\ Session.GetPeerKeyId (fst (Session.call c h)) = Session.GetPeerKeyId h
        /\ (Session.is_SetAdminId c = false -> fst (Session.call c h) = h))
  /\ (forall that : SecureSessionHandle,
        fst (Session.call (Session.CallAssign that) h) = that).
Proof.
  split; [reflexivity |]. split; [reflexivity |]. split; [reflexivity |]. split.
  - intros c Hc. destruct c; simpl in *; try discriminate;
      repeat split; try reflexivity; discriminate.
  - intros that. reflexivity.
Qed.

Lemma SetAdminId_only_declared_mutator_witness :
  Session.is_assignment (Session.CallEq (mkSecureSessionHandle 7 1 3)) = false
  /\ Session.is_SetAdminId (Session.CallEq (mkSecureSessionHandle 7 1 3)) = false
  /\ fst (@Session.call linux_platform (Session.CallEq (mkSecureSessionHandle 7 1 3))
                        (mkSecureSessionHandle 7 1 65535))
     = mkSecureSessionHandle 7 1 65535.
Proof.
  split; [reflexivity |]. split; [reflexivity |].
  apply (proj1 (proj2 (proj2 (proj2
    (@SetAdminId_only_declared_mutator linux_platform
       (mkSecureSessionHandle 7 1 65535) 3))))
    (Session.CallEq (mkSecureSessionHandle 7 1 3)) eq_refl).
  reflexivity.
Defined.

(** ** Packet buffers *)

Lemma wrap_size_t_small (z : Z) : 0 <= z <= SIZE_MAX -> wrap_size_t z = z.
Proof.
  unfold wrap_size_t, SIZE_MAX. intros Hz. apply Z.mod_small. lia.
Qed.

Section BufferFacts.
Context `{Platform} `{Allocator}.

Lemma size_limit_no_wrap :
  platform_ok ->
  wrap_size_t (PacketBuffer_kMaxSize - MessagePacketBuffer.kMaxFooterSize)
  = PacketBuffer_kMaxSize - MessagePacketBuffer.kMaxFooterSize.
Proof.
  intros (Ha & Hb & Hc). apply wrap_size_t_small.
  unfold SIZE_MAX in *. lia.
Qed.

Lemma New_rejects (n : Z) :
  platform_ok ->
  PacketBuffer_kMaxSize - MessagePacketBuffer.kMaxFooterSize < n ->
  MessagePacketBuffer.New n = None.
Proof.
  intros Hok Hn. unfold MessagePacketBuffer.New.
  rewrite size_limit_no_wrap by assumption.
  destruct (Z.gtb_spec n (PacketBuffer_kMaxSize - MessagePacketBuffer.kMaxFooterSize));
    [reflexivity | lia].
Qed.

Lemma New_allocates (n : Z) :
  platform_ok -> 0 <= n ->
  n <= PacketBuffer_kMaxSize - MessagePacketBuffer.kMaxFooterSize ->
  MessagePacketBuffer.New n
  = PacketBufferHandle_New (n + MessagePacketBuffer.kMaxFooterSize).
Proof.
  intros Hok Hn0 Hn. unfold MessagePacketBuffer.New.
  rewrite size_limit_no_wrap by assumption.
  destruct (Z.gtb_spec n (PacketBuffer_kMaxSize - MessagePacketBuffer.kMaxFooterSize));
    [lia |].
  rewrite wrap_size_t_small; [reflexivity |].
  destruct Hok as (Ha & Hb & Hc). unfold SIZE_MAX in *. lia.
Qed.

Lemma HasFooterSpace_true (b : PacketBuffer) :
  MessagePacketBuffer.HasFooterSpace b = true
  <-> MessagePacketBuffer.kMaxFooterSize <= AvailableDataLength b.
Proof.
  unfold MessagePacketBuffer.HasFooterSpace. rewrite Z.geb_le. reflexivity.
Qed.

Lemma AvailableDataLength_AppendData (b : PacketBuffer) (bytes : list byte) :
  AvailableDataLength (AppendData b bytes)
  = AvailableDataLength b - Z.of_nat (length bytes).
Proof.
  unfold AvailableDataLength, MaxDataLength, DataLength, AppendData. simpl.
  rewrite length_app. lia.
Qed.
End BufferFacts.

(** C3: [New n] asks the system allocator for [n] bytes plus the footer,
    and answers with that allocation; it answers with the empty handle
    exactly when [n] exceeds [kMaxSize - kMaxFooterSize] or the
    allocation fails.  The function is total: there is no other
    outcome. *)
Theorem MessagePacketBuffer_New_reserves_footer `{Platform} `{Allocator} (n : Z) :
  platform_ok -> 0 <= n <= SIZE_MAX ->
  MessagePacketBuffer.kMaxFooterSize = kMaxTagLen
  /\ (n <= PacketBuffer_kMaxSize - MessagePacketBuffer.kMaxFooterSize ->
      MessagePacketBuffer.New n
      = PacketBufferHandle_New (n + MessagePacketBuffer.kMaxFooterSize))
  /\ (MessagePacketBuffer.New n = None <->
      n > PacketBuffer_kMaxSize - MessagePacketBuffer.kMaxFooterSize
      \/ PacketBufferHandle_New (n + MessagePacketBuffer.kMaxFooterSize) = None).
Proof.
  intros Hok [Hn0 Hn]. split; [reflexivity |]. split.
  - intros Hle. apply New_allocates; assumption.
  - destruct (Z_le_gt_dec n (PacketBuffer_kMaxSize - MessagePacketBuffer.kMaxFooterSize))
      as [Hle | Hgt].
    + rewrite New_allocates by assumption. split; [auto | intros [? | ?]; [lia | assumption]].
    + rewrite New_rejects by (assumption || lia). split; auto.
Qed.

Lemma linux_platform_ok : @platform_ok linux_platform.
Proof. unfold platform_ok, UINT16_MAX, SIZE_MAX. simpl. lia. Qed.

Lemma MessagePacketBuffer_New_reserves_footer_witness :
  @MessagePacketBuffer.New linux_platform exact_allocator 100
  = Some (mkPacketBuffer 116 0 [] None)
  /\ (@MessagePacketBuffer.New linux_platform exhausted_allocator 100 = None)
  /\ (@MessagePacketBuffer.New linux_platform exact_allocator 1265 = None).
Proof.
  assert (Hn : 0 <= 100 <= SIZE_MAX) by (unfold SIZE_MAX; lia).
  assert (Hm : 0 <= 1265 <= SIZE_MAX) by (unfold SIZE_MAX; lia).
  split; [| split].
  - rewrite (proj1 (proj2 (@MessagePacketBuffer_New_reserves_footer
      linux_platform exact_allocator 100 linux_platform_ok Hn))); [reflexivity |].
    simpl. lia.
  - apply (proj2 (proj2 (@MessagePacketBuffer_New_reserves_footer
      linux_platform exhausted_allocator 100 linux_platform_ok Hn))).
    right. reflexivity.
  - apply (proj2 (proj2 (@MessagePacketBuffer_New_reserves_footer
      linux_platform exact_allocator 1265 linux_platform_ok Hm))).
    left. simpl. lia.
Defined.

(** C6: a buffer that [New n] returned, with [n] within the size limit,
    still has room for the footer after up to [n] bytes were written to
    it; and [HasFooterSpace] is true exactly when the available data
    length is at least [kMaxFooterSize]. *)
Theorem New_leaves_footer_space `{Platform} `{Allocator}
    (n : Z) (b : PacketBuffer) (bytes : list byte) :
  platform_ok -> allocator_contract ->
  0 <= n <= PacketBuffer_kMaxSize - MessagePacketBuffer.kMaxFooterSize ->
  MessagePacketBuffer.New n = Some b ->
  Z.of_nat (length bytes) <= n ->
  MessagePacketBuffer.HasFooterSpace (AppendData b bytes) = true
  /\ (forall b' : PacketBuffer,
        MessagePacketBuffer.HasFooterSpace b' = true
        <-> AvailableDataLength b' >= MessagePacketBuffer.kMaxFooterSize).
Proof.
  intros Hok Hcontract [Hn0 Hn] Hnew Hlen. split.
  - rewrite New_allocates in Hnew by assumption.
    destruct (Hcontract _ _ Hnew) as (Hempty & Hroom & _).
    apply HasFooterSpace_true. rewrite AvailableDataLength_AppendData.
    unfold AvailableDataLength, DataLength. rewrite Hempty. simpl. lia.
  - intros b'. rewrite HasFooterSpace_true. lia.
Qed.

Lemma exact_allocator_contract : @allocator_contract exact_allocator.
Proof.
  intros sz b Hb. simpl in Hb. injection Hb as <-.
  unfold MaxDataLength. simpl. repeat split. lia.
Qed.

Lemma New_leaves_footer_space_witness :
  @MessagePacketBuffer.HasFooterSpace linux_platform
    (AppendData (mkPacketBuffer 19 0 [] None) [x01; x02; x03]) = true.
Proof.
  refine (proj1 (@New_leaves_footer_space linux_platform exact_allocator 3
    (mkPacketBuffer 19 0 [] None) [x01; x02; x03]
    linux_platform_ok exact_allocator_contract _ _ _)).
  - simpl. lia.
  - reflexivity.
  - simpl. lia.
Defined.

(** ** Encrypted handles *)

(** The two views of [CloneData] agree: what the clone owns in the memory
    after the call is what [CloneData] on contents returns. *)
Lemma CloneData_views_agree `{Allocator} (m : Memory.Blocks) (e : Memory.EncryptedPointer) :
  Memory.owned (snd (Memory.CloneData m e)) (fst (Memory.CloneData m e))
  = fst (Encrypted.CloneData (Memory.owned m e)).
Proof.
  unfold Memory.CloneData, Memory.owned, Encrypted.CloneData,
    Memory.PacketBufferHandle_CloneData, PacketBufferHandle_CloneData.
  destruct e as [[a |]]; simpl; [| reflexivity].
  destruct (m !! a) as [b |] eqn:Ha; simpl; [| reflexivity].
  destruct (HasChainedBuffer b); simpl; [reflexivity |].
  destruct (PacketBufferHandle_New (alloc_size b)) as [other |]; simpl; [| reflexivity].
  rewrite lookup_app_r by lia. rewrite Nat.sub_diag. reflexivity.
Qed.

Lemma CloneData_success `{Allocator} (m : Memory.Blocks) (a : nat) (b other : PacketBuffer) :
  m !! a = Some b -> HasChainedBuffer b = false ->
  PacketBufferHandle_New (alloc_size b) = Some other ->
  Memory.CloneData m (Memory.Owning (Some a))
  = (Memory.Owning (Some (length m)), m ++ [Memory.filled other b]).
Proof.
  intros Ha Hsingle Hother.
  unfold Memory.CloneData, Memory.PacketBufferHandle_CloneData. simpl.
  rewrite Ha, Hsingle, Hother. reflexivity.
Qed.

(** C5: on a handle that owns a single buffer, [CloneData] returns, when
    the allocation succeeds, a handle to a block that was not in use
    before the call: the block the allocator returned, holding the bytes
    of the original and not chained.  Every other block, the original
    among them, is as before, and the copy is deep: writing to either of
    the two blocks afterwards leaves the bytes of the other.  On a
    chained buffer and on allocation failure [CloneData] returns the
    empty handle and the memory is as before. *)
Theorem CloneData_is_deep_copy `{Allocator}
    (m : Memory.Blocks) (a : nat) (b : PacketBuffer) :
  m !! a = Some b ->
  let result := Memory.CloneData m (Memory.Owning (Some a)) in
  (HasChainedBuffer b = false ->
   forall other, PacketBufferHandle_New (alloc_size b) = Some other ->
   exists (a' : nat) (c : PacketBuffer),
     fst result = Memory.Owning (Some a')
     /\ m !! a' = None /\ a' <> a
     /\ snd result !! a' = Some c
     /\ payload c = payload b
     /\ HasChainedBuffer c = false
     /\ alloc_size c = alloc_size other
     /\ (forall i, i <> a' -> snd result !! i = m !! i)
     /\ (forall w, <[a' := w]> (snd result) !! a = Some b)
     /\ (forall w, payload <$> (<[a := w]> (snd result) !! a') = Some (payload b)))
  /\ (HasChainedBuffer b = true -> result = (Memory.Owning None, m))
  /\ (PacketBufferHandle_New (alloc_size b) = None -> result = (Memory.Owning None, m)).
Proof.
  intros Ha result. pose proof (lookup_lt_Some _ _ _ Ha) as Hlt.
  split; [| split].
  - intros Hsingle other Hother. subst result.
    rewrite (CloneData_success m a b other Ha Hsingle Hother). simpl.
    exists (length m), (Memory.filled other b).
    assert (Hnew : (m ++ [Memory.filled other b]) !! length m
                   = Some (Memory.filled other b)).
    { rewrite lookup_app_r by lia. rewrite Nat.sub_diag. reflexivity. }
    assert (Hold : forall i, i <> length m ->
                             (m ++ [Memory.filled other b]) !! i = m !! i).
    { intros i Hi. destruct (Nat.lt_ge_cases i (length m)) as [Hi' | Hi'].
      - apply lookup_app_l, Hi'.
      - rewrite (lookup_ge_None_2 m i) by exact Hi'.
        apply lookup_ge_None_2. rewrite length_app. simpl. lia. }
    split; [reflexivity |].
    split; [apply lookup_ge_None_2; lia |].
    split; [lia |].
    split; [exact Hnew |].
    split; [reflexivity |].
    split; [reflexivity |].
    split; [reflexivity |].
    split; [exact Hold |].
    split.
    + intros w. rewrite list_lookup_insert_ne by lia.
      rewrite Hold by lia. exact Ha.
    + intros w. rewrite list_lookup_insert_ne by lia.
      rewrite Hnew. reflexivity.
  - intros Hchain. subst result.
    unfold Memory.CloneData, Memory.PacketBufferHandle_CloneData. simpl.
    rewrite Ha, Hchain. reflexivity.
  - intros Hfail. subst result.
    unfold Memory.CloneData, Memory.PacketBufferHandle_CloneData. simpl.
    rewrite Ha, Hfail. destruct (HasChainedBuffer b); reflexivity.
Qed.

Lemma CloneData_is_deep_copy_witness :
  let b := mkPacketBuffer 32 8 [x0a; x0b; x0c] None in
  let chained := mkPacketBuffer 32 8 [x0a] (Some b) in
  let m := [chained; b] in
  @Memory.CloneData exact_allocator m (Memory.Owning (Some 1%nat))
  = (Memory.Owning (Some 2%nat), [chained; b; mkPacketBuffer 32 8 [x0a; x0b; x0c] None])
  /\ @Memory.CloneData exact_allocator m (Memory.Owning (Some 0%nat))
     = (Memory.Owning None, m)
  /\ @Memory.CloneData exhausted_allocator m (Memory.Owning (Some 1%nat))
     = (Memory.Owning None, m).
Proof.
  intros b chained m. split; [| split].
  - destruct (proj1 (@CloneData_is_deep_copy exact_allocator m 1%nat b eq_refl)
                    eq_refl (mkPacketBuffer 32 0 [] None) eq_refl)
      as (a' & c & _).
    reflexivity.
  - apply (proj1 (proj2 (@CloneData_is_deep_copy exact_allocator m 0%nat chained eq_refl))).
    reflexivity.
  - apply (proj2 (proj2 (@CloneData_is_deep_copy exhausted_allocator m 1%nat b eq_refl))).
    reflexivity.
Defined.

(** The history of conversions only grows. *)
Lemma accounted_mono (log log' : list PacketBuffer) (e : EncryptedPacketBufferHandle) :
  log ⊆ log' -> accounted log e -> accounted log' e.
Proof.
  unfold accounted. intros Hsub. destruct (plain_of e) as [b |]; [| trivial].
  intros (c & Hc & Hbytes). exists c. split; [apply Hsub, Hc | exact Hbytes].
Qed.

Lemma record_converted_grows (h : PacketBufferHandle) (log : list PacketBuffer) :
  log ⊆ record_converted h log.
Proof.
  destruct h as [b |]; simpl; [| reflexivity].
  intros c Hc. apply elem_of_cons. right. exact Hc.
Qed.

Lemma accounted_converted (h : PacketBufferHandle) (log : list PacketBuffer) :
  accounted (record_converted h log) (FromPlain h).
Proof.
  unfold accounted. destruct h as [b |]; simpl; [| trivial].
  exists b. split; [apply elem_of_cons; left; reflexivity | reflexivity].
Qed.

Lemma accounted_empty (log : list PacketBuffer) : accounted log Encrypted.empty.
Proof. exact I. Qed.

Lemma accounted_clone `{Allocator} (log : list PacketBuffer)
    (e : EncryptedPacketBufferHandle) :
  accounted log e -> accounted log (fst (Encrypted.CloneData e)).
Proof.
  unfold accounted, Encrypted.CloneData, PacketBufferHandle_CloneData. simpl.
  destruct (plain_of e) as [b |]; [| trivial].
  destruct (HasChainedBuffer b); [trivial |].
  destruct (PacketBufferHandle_New (alloc_size b)); [| trivial].
  simpl. trivial.
Qed.

Definition all_accounted (w : World) : Prop :=
  Forall (accounted (converted w)) (encrypteds w).

Lemma act_preserves `{Allocator} (w : World) (a : Action) :
  all_accounted w -> all_accounted (act w a).
Proof.
  unfold all_accounted. intros Hw.
  destruct a as [h | i h | | j | i j | j | j | i j]; simpl; try exact Hw.
  - apply Forall_app. split; [exact Hw |]. apply Forall_singleton, accounted_empty.
  - destruct (encrypteds w !! j) as [e |] eqn:Hj; [| exact Hw]. simpl.
    apply Forall_app. split.
    + apply Forall_insert; [exact Hw | apply accounted_empty].
    + apply Forall_singleton. exact (Forall_lookup_1 _ _ _ _ Hw Hj).
  - destruct (encrypteds w !! i) as [ei |] eqn:Hi; [| exact Hw].
    destruct (encrypteds w !! j) as [ej |] eqn:Hj; [| exact Hw]. simpl.
    apply Forall_insert; [| apply accounted_empty].
    apply Forall_insert; [exact Hw |].
    exact (Forall_lookup_1 _ _ _ _ Hw Hj).
  - destruct (encrypteds w !! j) as [e |] eqn:Hj; [| exact Hw]. simpl.
    pose proof (Forall_lookup_1 _ _ _ _ Hw Hj) as He.
    apply Forall_app. split.
    + apply Forall_insert; assumption.
    + apply Forall_singleton. exact (accounted_clone _ _ He).
  - destruct (plains w !! j) as [h |] eqn:Hj; [| exact Hw]. simpl.
    apply Forall_app. split.
    + eapply Forall_impl; [exact Hw |].
      intros e. apply accounted_mono, record_converted_grows.
    + apply Forall_singleton, accounted_converted.
  - destruct (encrypteds w !! i) as [ei |] eqn:Hi; [| exact Hw].
    destruct (plains w !! j) as [h |] eqn:Hj; [| exact Hw]. simpl.
    apply Forall_insert; [| apply accounted_converted].
    eapply Forall_impl; [exact Hw |].
    intros e. apply accounted_mono, record_converted_grows.
Qed.

Lemma run_preserves `{Allocator} (prog : list Action) (w : World) :
  all_accounted w -> all_accounted (run w prog).
Proof.
  revert w. induction prog as [| a prog IH]; intros w Hw; simpl; [exact Hw |].
  apply IH, act_preserves, Hw.
Qed.



(** ** The delegate *)

(** C7: the class gives a body to each of its five callbacks, so a
    derived class may leave any of them out; the four [void] callbacks of
    the class do nothing, and its [QueueReceivedMessageAndSync] returns
    [CHIP_NO_ERROR] whatever it is passed. *)
Theorem delegate_defaults (D : Type) (d : D) :
  (forall packetHeader payloadHeader session source msgBuf,
      @OnMessageReceived D (base_delegate D)
        packetHeader payloadHeader session source msgBuf d = d)
  /\ (forall error source, @OnReceiveError D (base_delegate D) error source d = d)
  /\ (forall session, @OnNewConnection D (base_delegate D) session d = d)
  /\ (forall session, @OnConnectionExpired D (base_delegate D) session d = d)
  /\ (forall state msgBuf,
        @QueueReceivedMessageAndSync D (base_delegate D) state msgBuf d
        = (CHIP_NO_ERROR, d)).
Proof. repeat split. Qed.

(** A derived class that overrides one callback answers the others as the
    base class does. *)
Lemma counting_delegate_inherits (n : Z) state msgBuf session :
  @QueueReceivedMessageAndSync Z counting_delegate state msgBuf n = (CHIP_NO_ERROR, n)
  /\ @OnConnectionExpired Z counting_delegate session n = n
  /\ @OnNewConnection Z counting_delegate session n = n + 1.
Proof. repeat split. Qed.

(** ** Advertising parameters *)

Lemma memcpy_prefix (dst src : list byte) (n : nat) :
  (n <= length src)%nat -> take n (Mdns.memcpy dst src n) = take n src.
Proof.
  intros Hn. unfold Mdns.memcpy.
  rewrite take_app_le by (rewrite length_take; lia).
  apply take_idemp.
Qed.

Lemma SetMac_well_formed (p : Mdns.BaseAdvertisingParams) (mac : Mdns.ByteSpan) :
  Mdns.well_formed p -> Mdns.well_formed (Mdns.SetMac p mac).
Proof.
  unfold Mdns.well_formed, Mdns.SetMac, Mdns.memcpy. simpl. intros [Hlen _].
  rewrite length_app, length_take, length_drop. lia.
Qed.

(** C9: after [SetMac mac], [GetMac] is the first [min (size mac) 8]
    bytes of [mac]: a span of more than [kMaxMacSize] bytes is cut to its
    first eight, and [SetMac] has no result in which it could report
    that. *)
Theorem SetMac_truncates (p : Mdns.BaseAdvertisingParams) (mac : Mdns.ByteSpan) :
  Mdns.GetMac (Mdns.SetMac p mac) = take (Nat.min (length mac) 8) mac
  /\ length (Mdns.GetMac (Mdns.SetMac p mac)) = Nat.min (length mac) 8
  /\ Mdns.kMaxMacSize = 8%nat.
Proof.
  assert (Hget : Mdns.GetMac (Mdns.SetMac p mac) = take (Nat.min (length mac) 8) mac).
  { unfold Mdns.GetMac, Mdns.SetMac. simpl. apply memcpy_prefix. unfold Mdns.kMaxMacSize. lia. }
  split; [exact Hget |]. split; [| reflexivity].
  rewrite Hget, length_take. lia.
Qed.

Example SetMac_ten_bytes :
  Mdns.GetMac (Mdns.SetMac (Mdns.initial 11097)
                 [x01; x02; x03; x04; x05; x06; x07; x08; x09; x0a])
  = [x01; x02; x03; x04; x05; x06; x07; x08].
Proof. reflexivity. Qed.

Example SetMac_six_bytes_after_eight :
  Mdns.mMacStorage
    (Mdns.SetMac (Mdns.SetMac (Mdns.initial 11097)
                    [x01; x02; x03; x04; x05; x06; x07; x08])
                 [xa1; xa2; xa3; xa4; xa5; xa6])
  = [xa1; xa2; xa3; xa4; xa5; xa6; x07; x08].
Proof. reflexivity. Qed.

(** ** The command parser *)

Section ParserFacts.
Context `{Zcl}.

(** Two labels at different positions of the list differ. *)
Lemma labels_differ (i j : nat) (x y : Z) :
  NoDup command_ids ->
  command_ids !! i = Some x -> command_ids !! j = Some y -> i <> j -> x <> y.
Proof.
  intros Hd Hi Hj Hij Heq. subst y.
  exact (Hij (NoDup_lookup _ _ _ _ Hd Hi Hj)).
Qed.

Lemma lift_percentage_not_down_close :
  NoDup command_ids ->
  ZCL_WINDOW_COVERING_GO_TO_LIFT_PERCENTAGE_COMMAND_ID
  <> ZCL_WINDOW_COVERING_DOWN_CLOSE_COMMAND_ID.
Proof.
  intros Hd. apply (labels_differ 1 0 _ _ Hd); [reflexivity | reflexivity | lia].
Qed.

Lemma lift_value_not_earlier :
  NoDup command_ids ->
  ZCL_WINDOW_COVERING_GO_TO_LIFT_VALUE_COMMAND_ID
  <> ZCL_WINDOW_COVERING_DOWN_CLOSE_COMMAND_ID
  /\ ZCL_WINDOW_COVERING_GO_TO_LIFT_VALUE_COMMAND_ID
     <> ZCL_WINDOW_COVERING_GO_TO_LIFT_PERCENTAGE_COMMAND_ID.
Proof.
  intros Hd. split.
  - apply (labels_differ 2 0 _ _ Hd); [reflexivity | reflexivity | lia].
  - apply (labels_differ 2 1 _ _ Hd); [reflexivity | reflexivity | lia].
Qed.
End ParserFacts.

(** The statement that a lift command whose buffer is too short is
    answered with MALFORMED_COMMAND, no callback invoked, whatever the
    other fields of the command are. *)
Definition short_lift_command_always_malformed : Prop :=
  forall (Z0 : Zcl) (cmd : EmberAfClusterCommand),
    NoDup command_ids ->
    (commandId cmd = ZCL_WINDOW_COVERING_GO_TO_LIFT_PERCENTAGE_COMMAND_ID
     /\ bufLen cmd < payloadStartIndex cmd + 1)
    \/ (commandId cmd = ZCL_WINDOW_COVERING_GO_TO_LIFT_VALUE_COMMAND_ID
        /\ bufLen cmd < payloadStartIndex cmd + 2) ->
    CommandHandler.emberAfWindowCoveringClusterServerCommandParse cmd
    = (EMBER_ZCL_STATUS_MALFORMED_COMMAND, []).

Lemma zcl_ids_distinct : @command_ids zcl_ids = [1; 5; 4; 8; 7; 2; 0] /\ NoDup (@command_ids zcl_ids).
Proof.
  split; [reflexivity |].
  unfold command_ids. simpl.
  repeat (apply NoDup_cons_2; [rewrite ?elem_of_cons, elem_of_nil; lia |]).
  apply NoDup_nil_2.
Qed.

(** C10 as stated fails: a manufacturer-specific command never reaches
    the [switch]; the parser answers UNSUP_MANUF_CLUSTER_COMMAND, however
    short its buffer. *)
Lemma manufacturer_specific_short_command :
  ~ short_lift_command_always_malformed.
Proof.
  intros Hall.
  specialize (Hall zcl_ids
    (mkEmberAfClusterCommand (mkEmberApsFrame 258 1) [] 0 true 4098 5 3 0)
    (proj2 zcl_ids_distinct)).
  simpl in Hall. discriminate Hall. left. split; [reflexivity | lia].
Qed.

(** C10, amended: for a command that is not manufacturer-specific, a
    Go-To-Lift-Percentage command with [bufLen < payloadStartIndex + 1]
    and a Go-To-Lift-Value command with [bufLen < payloadStartIndex + 2]
    are answered with EMBER_ZCL_STATUS_MALFORMED_COMMAND, and no cluster
    callback is invoked. *)
Theorem short_lift_command_malformed `{Zcl} (cmd : EmberAfClusterCommand) :
  NoDup command_ids ->
  mfgSpecific cmd = false ->
  (commandId cmd = ZCL_WINDOW_COVERING_GO_TO_LIFT_PERCENTAGE_COMMAND_ID
   /\ bufLen cmd < payloadStartIndex cmd + 1)
  \/ (commandId cmd = ZCL_WINDOW_COVERING_GO_TO_LIFT_VALUE_COMMAND_ID
      /\ bufLen cmd < payloadStartIndex cmd + 2) ->
  CommandHandler.emberAfWindowCoveringClusterServerCommandParse cmd
  = (EMBER_ZCL_STATUS_MALFORMED_COMMAND, []).
Proof.
  intros Hd Hmfg Hshort.
  unfold CommandHandler.emberAfWindowCoveringClusterServerCommandParse.
  rewrite Hmfg. simpl.
  destruct Hshort as [[Hid Hlen] | [Hid Hlen]]; rewrite Hid.
  - rewrite (proj2 (Z.eqb_neq _ _) (lift_percentage_not_down_close Hd)).
    rewrite Z.eqb_refl.
    rewrite (proj2 (Z.ltb_lt _ _) Hlen). reflexivity.
  - destruct (lift_value_not_earlier Hd) as [Hne1 Hne2].
    rewrite (proj2 (Z.eqb_neq _ _) Hne1), (proj2 (Z.eqb_neq _ _) Hne2).
    rewrite Z.eqb_refl.
    rewrite (proj2 (Z.ltb_lt _ _) Hlen). reflexivity.
Qed.

Lemma short_lift_command_malformed_witness :
  let short_value := mkEmberAfClusterCommand (mkEmberApsFrame 258 1)
                       [x01; x04; x10] 4 false 0 4 3 0 in
  let full_value := mkEmberAfClusterCommand (mkEmberApsFrame 258 1)
                      [x01; x04; x10; x27] 5 false 0 4 3 0 in
  @CommandHandler.emberAfWindowCoveringClusterServerCommandParse zcl_ids short_value
  = (EMBER_ZCL_STATUS_MALFORMED_COMMAND, [])
  /\ @CommandHandler.emberAfWindowCoveringClusterServerCommandParse zcl_ids full_value
     = (EMBER_ZCL_STATUS_SUCCESS, [GoToLiftValue 39]).
Proof.
  intros short_value full_value. split; [| reflexivity].
  apply (@short_lift_command_malformed zcl_ids short_value (proj2 zcl_ids_distinct)).
  - reflexivity.
  - right. split; [reflexivity | simpl; lia].
Defined.

(** ** More on the command parser *)

Section ClusterParser.
Context `{Zcl}.

(** All the inequalities between case labels, from their distinctness. *)
Lemma labels_pairwise_distinct :
  NoDup command_ids ->
  forall i j x y, command_ids !! i = Some x -> command_ids !! j = Some y ->
                  i <> j -> x <> y.
Proof. intros Hd i j x y. apply labels_differ, Hd. Qed.

Lemma status_not_malformed (wasHandled clusterExists mfg : bool) :
  CommandHandler.status wasHandled clusterExists mfg <> EMBER_ZCL_STATUS_MALFORMED_COMMAND.
Proof. destruct wasHandled, clusterExists, mfg; discriminate. Qed.

Lemma status_handled (wasHandled mfg : bool) :
  CommandHandler.status wasHandled true mfg = EMBER_ZCL_STATUS_SUCCESS <-> wasHandled = true.
Proof. destruct wasHandled, mfg; simpl; split; congruence. Qed.
End ClusterParser.

(** With the labels pairwise distinct, the comparisons of the cascade
    that do not concern the command at hand are false. *)
Ltac label_facts Hd :=
  let D := fresh "D" in
  pose proof (labels_pairwise_distinct Hd) as D;
  pose proof (D 0%nat 1%nat _ _ eq_refl eq_refl ltac:(lia));
  pose proof (D 0%nat 2%nat _ _ eq_refl eq_refl ltac:(lia));
  pose proof (D 0%nat 3%nat _ _ eq_refl eq_refl ltac:(lia));
  pose proof (D 0%nat 4%nat _ _ eq_refl eq_refl ltac:(lia));
  pose proof (D 0%nat 5%nat _ _ eq_refl eq_refl ltac:(lia));
  pose proof (D 0%nat 6%nat _ _ eq_refl eq_refl ltac:(lia));
  pose proof (D 1%nat 2%nat _ _ eq_refl eq_refl ltac:(lia));
  pose proof (D 1%nat 3%nat _ _ eq_refl eq_refl ltac:(lia));
  pose proof (D 1%nat 4%nat _ _ eq_refl eq_refl ltac:(lia));
  pose proof (D 1%nat 5%nat _ _ eq_refl eq_refl ltac:(lia));
  pose proof (D 1%nat 6%nat _ _ eq_refl eq_refl ltac:(lia));
  pose proof (D 2%nat 3%nat _ _ eq_refl eq_refl ltac:(lia));
  pose proof (D 2%nat 4%nat _ _ eq_refl eq_refl ltac:(lia));
  pose proof (D 2%nat 5%nat _ _ eq_refl eq_refl ltac:(lia));
  pose proof (D 2%nat 6%nat _ _ eq_refl eq_refl ltac:(lia));
  pose proof (D 3%nat 4%nat _ _ eq_refl eq_refl ltac:(lia));
  pose proof (D 3%nat 5%nat _ _ eq_refl eq_refl ltac:(lia));
  pose proof (D 3%nat 6%nat _ _ eq_refl eq_refl ltac:(lia));
  pose proof (D 4%nat 5%nat _ _ eq_refl eq_refl ltac:(lia));
  pose proof (D 4%nat 6%nat _ _ eq_refl eq_refl ltac:(lia));
  pose proof (D 5%nat 6%nat _ _ eq_refl eq_refl ltac:(lia));
  clear D.

(** Case analysis on every comparison of the cascade. *)
Ltac cascade :=
  repeat match goal with
         | |- context [?a =? ?b] => destruct (Z.eqb_spec a b)
         | |- context [?a <? ?b] => destruct (Z.ltb_spec a b)
         end.

Lemma manufacturer_specific_never_handled_aux `{Zcl} (cmd : EmberAfClusterCommand) :
  mfgSpecific cmd = true ->
  CommandHandler.emberAfWindowCoveringClusterServerCommandParse cmd
  = (EMBER_ZCL_STATUS_UNSUP_MANUF_CLUSTER_COMMAND, []).
Proof.
  intros Hmfg. unfold CommandHandler.emberAfWindowCoveringClusterServerCommandParse.
  rewrite Hmfg. reflexivity.
Qed.

(** What holds of the outcome of every parse. *)
Definition coherent `{Zcl} (r : EmberAfStatus * list Invocation) : Prop :=
  (length (snd r) <= 1)%nat
  /\ (fst r = EMBER_ZCL_STATUS_SUCCESS
      <-> exists i, snd r = [i] /\ CommandHandler.answer i = true)
  /\ fst r <> EMBER_ZCL_STATUS_UNSUPPORTED_CLUSTER.

Lemma coherent_handled `{Zcl} (cmd : EmberAfClusterCommand) (i : Invocation) :
  coherent (CommandHandler.handled cmd i (CommandHandler.answer i)).
Proof.
  unfold coherent, CommandHandler.handled. simpl. split; [lia |]. split.
  - rewrite status_handled. split.
    + intros Ha. exists i. split; [reflexivity | exact Ha].
    + intros (j & Hj & Ha). injection Hj as ->. exact Ha.
  - destruct (CommandHandler.answer i), (mfgSpecific cmd); discriminate.
Qed.

Lemma coherent_unhandled `{Zcl} (s : EmberAfStatus) :
  s <> EMBER_ZCL_STATUS_SUCCESS -> s <> EMBER_ZCL_STATUS_UNSUPPORTED_CLUSTER ->
  coherent (s, []).
Proof.
  intros Hs Hu. unfold coherent. simpl. split; [lia |]. split; [| exact Hu].
  split; [contradiction | intros (i & Hi & _); discriminate].
Qed.

(** X1: a parse invokes at most one cluster callback; it answers SUCCESS
    exactly when it invoked one and that callback reported the command
    handled; and it never answers UNSUPPORTED_CLUSTER. *)
Theorem parse_status_follows_callback `{Zcl} (cmd : EmberAfClusterCommand) :
  let r := CommandHandler.emberAfWindowCoveringClusterServerCommandParse cmd in
  (length (snd r) <= 1)%nat
  /\ (fst r = EMBER_ZCL_STATUS_SUCCESS
      <-> exists i, snd r = [i] /\ CommandHandler.answer i = true)
  /\ fst r <> EMBER_ZCL_STATUS_UNSUPPORTED_CLUSTER.
Proof.
  change (coherent (CommandHandler.emberAfWindowCoveringClusterServerCommandParse cmd)).
  unfold CommandHandler.emberAfWindowCoveringClusterServerCommandParse.
  destruct (mfgSpecific cmd) eqn:Hmfg; simpl.
  { apply coherent_unhandled; discriminate. }
  cascade;
    first [ apply coherent_unhandled; [discriminate | discriminate]
          | apply (coherent_handled cmd DownClose)
          | apply (coherent_handled cmd (GoToLiftPercentage _))
          | apply (coherent_handled cmd (GoToLiftValue _))
          | apply (coherent_handled cmd (GoToTiltPercentage _))
          | apply (coherent_handled cmd (GoToTiltValue _))
          | apply (coherent_handled cmd Stop)
          | apply (coherent_handled cmd UpOpen)
          | (rewrite Hmfg; apply coherent_unhandled; discriminate) ].
Qed.

(** The payload a command needs: one byte for the two percentage
    commands, two for the two value commands. *)
Definition short_payload `{Zcl} (cmd : EmberAfClusterCommand) : Prop :=
  ((commandId cmd = ZCL_WINDOW_COVERING_GO_TO_LIFT_PERCENTAGE_COMMAND_ID
    \/ commandId cmd = ZCL_WINDOW_COVERING_GO_TO_TILT_PERCENTAGE_COMMAND_ID)
   /\ bufLen cmd < payloadStartIndex cmd + 1)
  \/ ((commandId cmd = ZCL_WINDOW_COVERING_GO_TO_LIFT_VALUE_COMMAND_ID
       \/ commandId cmd = ZCL_WINDOW_COVERING_GO_TO_TILT_VALUE_COMMAND_ID)
      /\ bufLen cmd < payloadStartIndex cmd + 2).

(** X2: the parser answers MALFORMED_COMMAND exactly for the commands that
    are not manufacturer-specific, carry a payload (the lift and the tilt
    commands alike) and whose buffer ends before the payload does; no
    callback is invoked for them. *)
Theorem malformed_exactly_when_payload_short `{Zcl} (cmd : EmberAfClusterCommand) :
  NoDup command_ids ->
  (fst (CommandHandler.emberAfWindowCoveringClusterServerCommandParse cmd)
   = EMBER_ZCL_STATUS_MALFORMED_COMMAND
   <-> mfgSpecific cmd = false /\ short_payload cmd)
  /\ (fst (CommandHandler.emberAfWindowCoveringClusterServerCommandParse cmd)
      = EMBER_ZCL_STATUS_MALFORMED_COMMAND ->
      snd (CommandHandler.emberAfWindowCoveringClusterServerCommandParse cmd) = []).
Proof.
  intros Hd. label_facts Hd.
  unfold short_payload,
    CommandHandler.emberAfWindowCoveringClusterServerCommandParse,
    CommandHandler.handled.
  destruct (mfgSpecific cmd); simpl.
  { split; [split; [discriminate | intros [? _]; discriminate] | discriminate]. }
  cascade; cbn [fst snd]; (split; [split |]);
    first
      [ (* a case that ran to its callback, or fell through *)
        intros Hs; exfalso; exact (status_not_malformed _ _ _ Hs)
      | intros Hs; discriminate Hs
      | (* a case that returned early *)
        intros _; first
          [ reflexivity
          | split; [reflexivity |];
            first [ left; split; [first [left; assumption | right; assumption]
                                 | assumption]
                  | right; split; [first [left; assumption | right; assumption]
                                  | assumption] ] ]
      | (* the command is not a short payload command *)
        intros [_ [[[Hid | Hid] Hlen] | [[Hid | Hid] Hlen]]];
        first [ reflexivity
              | exfalso; congruence
              | exfalso;
                match goal with
                | Hge : ?x <= bufLen cmd |- _ => exact (proj1 (Z.lt_nge _ _) Hlen Hge)
                end ] ].
Qed.

Lemma malformed_exactly_when_payload_short_witness :
  fst (@CommandHandler.emberAfWindowCoveringClusterServerCommandParse zcl_ids
         (mkEmberAfClusterCommand (mkEmberApsFrame 258 1) [x01; x07; x10] 4 false 0 7 3 0))
  = EMBER_ZCL_STATUS_MALFORMED_COMMAND.
Proof.
  apply (proj1 (@malformed_exactly_when_payload_short zcl_ids _ (proj2 zcl_ids_distinct))).
  split; [reflexivity |]. right. split; [right; reflexivity | simpl; lia].
Defined.

(** X3: a command whose id is none of the seven of the cluster is answered
    with UNSUP_COMMAND, and no callback is invoked. *)
Theorem unknown_command_unsupported `{Zcl} (cmd : EmberAfClusterCommand) :
  mfgSpecific cmd = false ->
  commandId cmd ∉ command_ids ->
  CommandHandler.emberAfWindowCoveringClusterServerCommandParse cmd
  = (EMBER_ZCL_STATUS_UNSUP_COMMAND, []).
Proof.
  intros Hmfg Hid.
  unfold CommandHandler.emberAfWindowCoveringClusterServerCommandParse.
  rewrite Hmfg. simpl.
  unfold command_ids in Hid. rewrite !not_elem_of_cons in Hid.
  destruct Hid as (H1 & H2 & H3 & H4 & H5 & H6 & H7 & _).
  rewrite !(proj2 (Z.eqb_neq _ _)) by assumption. reflexivity.
Qed.

Lemma unknown_command_unsupported_witness :
  @CommandHandler.emberAfWindowCoveringClusterServerCommandParse zcl_ids
    (mkEmberAfClusterCommand (mkEmberApsFrame 258 1) [x01; x09; x10] 4 false 0 9 3 0)
  = (EMBER_ZCL_STATUS_UNSUP_COMMAND, []).
Proof.
  apply (@unknown_command_unsupported zcl_ids); [reflexivity |].
  change (9 ∉ [1; 5; 4; 8; 7; 2; 0]).
  rewrite !not_elem_of_cons. repeat split; try discriminate. apply not_elem_of_nil.
Defined.

(** The answer a callback's report turns into, for a command of the
    cluster that is not manufacturer-specific. *)
Definition reported (wasHandled : bool) : EmberAfStatus :=
  if wasHandled then EMBER_ZCL_STATUS_SUCCESS else EMBER_ZCL_STATUS_UNSUP_COMMAND.

(** X4: a payload command whose buffer is long enough invokes its own
    callback, once, with the value read at the payload offset (one byte
    for a percentage, sixteen bits for a value); the answer is SUCCESS
    if the callback handled it and UNSUP_COMMAND if not. *)
Theorem payload_command_reaches_callback `{Zcl} (cmd : EmberAfClusterCommand) :
  NoDup command_ids ->
  mfgSpecific cmd = false ->
  let parse := CommandHandler.emberAfWindowCoveringClusterServerCommandParse in
  let v8 := emberAfGetInt8u (buffer cmd) (payloadStartIndex cmd) (bufLen cmd) in
  let v16 := emberAfGetInt16u (buffer cmd) (payloadStartIndex cmd) (bufLen cmd) in
  (commandId cmd = ZCL_WINDOW_COVERING_GO_TO_LIFT_PERCENTAGE_COMMAND_ID ->
   payloadStartIndex cmd + 1 <= bufLen cmd ->
   parse cmd = (reported (WindowCoveringGoToLiftPercentageCallback v8),
                [GoToLiftPercentage v8]))
  /\ (commandId cmd = ZCL_WINDOW_COVERING_GO_TO_LIFT_VALUE_COMMAND_ID ->
      payloadStartIndex cmd + 2 <= bufLen cmd ->
      parse cmd = (reported (WindowCoveringGoToLiftValueCallback v16),
                   [GoToLiftValue v16]))
  /\ (commandId cmd = ZCL_WINDOW_COVERING_GO_TO_TILT_PERCENTAGE_COMMAND_ID ->
      payloadStartIndex cmd + 1 <= bufLen cmd ->
      parse cmd = (reported (WindowCoveringGoToTiltPercentageCallback v8),
                   [GoToTiltPercentage v8]))
  /\ (commandId cmd = ZCL_WINDOW_COVERING_GO_TO_TILT_VALUE_COMMAND_ID ->
      payloadStartIndex cmd + 2 <= bufLen cmd ->
      parse cmd = (reported (WindowCoveringGoToTiltValueCallback v16),
                   [GoToTiltValue v16])).
Proof.
  intros Hd Hmfg parse v8 v16. label_facts Hd.
  subst parse v8 v16.
  unfold CommandHandler.emberAfWindowCoveringClusterServerCommandParse,
    CommandHandler.handled, reported.
  rewrite Hmfg. simpl.
  repeat split; intros Hid Hlen; rewrite Hid;
    cascade; first [reflexivity | exfalso; congruence
                   | exfalso; match goal with
                              | Hlt : bufLen cmd < _ |- _ =>
                                  exact (proj1 (Z.lt_nge _ _) Hlt Hlen)
                              end].
Qed.

Lemma payload_command_reaches_callback_witness :
  @CommandHandler.emberAfWindowCoveringClusterServerCommandParse zcl_ids
    (mkEmberAfClusterCommand (mkEmberApsFrame 258 1) [x01; x07; x08; x32] 4 false 0 8 3 0)
  = (EMBER_ZCL_STATUS_SUCCESS, [GoToTiltPercentage 50]).
Proof.
  apply (proj1 (proj2 (proj2 (@payload_command_reaches_callback zcl_ids
    (mkEmberAfClusterCommand (mkEmberApsFrame 258 1) [x01; x07; x08; x32] 4 false 0 8 3 0)
    (proj2 zcl_ids_distinct) eq_refl)))).
  - reflexivity.
  - simpl. lia.
Defined.

(** X5: the commands without payload (down/close, stop, up/open) invoke
    their callback whatever the buffer holds: its length and the payload
    offset are not looked at. *)
Theorem payloadless_command_ignores_buffer `{Zcl} (cmd : EmberAfClusterCommand) :
  NoDup command_ids ->
  mfgSpecific cmd = false ->
  let parse := CommandHandler.emberAfWindowCoveringClusterServerCommandParse in
  (commandId cmd = ZCL_WINDOW_COVERING_DOWN_CLOSE_COMMAND_ID ->
   parse cmd = (reported WindowCoveringDownCloseCallback, [DownClose]))
  /\ (commandId cmd = ZCL_WINDOW_COVERING_STOP_COMMAND_ID ->
      parse cmd = (reported WindowCoveringStopCallback, [Stop]))
  /\ (commandId cmd = ZCL_WINDOW_COVERING_UP_OPEN_COMMAND_ID ->
      parse cmd = (reported WindowCoveringUpOpenCallback, [UpOpen])).
Proof.
  intros Hd Hmfg parse. label_facts Hd. subst parse.
  unfold CommandHandler.emberAfWindowCoveringClusterServerCommandParse,
    CommandHandler.handled, reported.
  rewrite Hmfg. simpl.
  repeat split; intros Hid; rewrite Hid;
    cascade; first [reflexivity | exfalso; congruence].
Qed.

Lemma payloadless_command_ignores_buffer_witness :
  @CommandHandler.emberAfWindowCoveringClusterServerCommandParse zcl_ids
    (mkEmberAfClusterCommand (mkEmberApsFrame 258 1) [] 0 false 0 2 3 0)
  = (EMBER_ZCL_STATUS_SUCCESS, [Stop]).
Proof.
  apply (proj1 (proj2 (@payloadless_command_ignores_buffer zcl_ids
    (mkEmberAfClusterCommand (mkEmberApsFrame 258 1) [] 0 false 0 2 3 0)
    (proj2 zcl_ids_distinct) eq_refl))).
  reflexivity.
Defined.

(** ** The main controller *)

Section MainController.
Context `{Zcl}.

(** The condition under which the controller hands a command to the
    window-covering parser. *)
Definition routed (cmd : EmberAfClusterCommand) : bool :=
  negb ((direction cmd =? CommandHandler.uint8_t ZCL_DIRECTION_SERVER_TO_CLIENT)
        && emberAfContainsClientWithMfgCode (destinationEndpoint (apsFrame cmd))
             (clusterId (apsFrame cmd)) (mfgCode cmd))
  && (direction cmd =? CommandHandler.uint8_t ZCL_DIRECTION_CLIENT_TO_SERVER)
  && emberAfContainsServerWithMfgCode (destinationEndpoint (apsFrame cmd))
       (clusterId (apsFrame cmd)) (mfgCode cmd)
  && (clusterId (apsFrame cmd) =? ZCL_WINDOW_COVERING_CLUSTER_ID).

Lemma controller_cases (cmd : EmberAfClusterCommand) :
  CommandHandler.emberAfClusterSpecificCommandParse cmd
  = if routed cmd
    then CommandHandler.emberAfWindowCoveringClusterServerCommandParse cmd
    else (CommandHandler.status false false (mfgSpecific cmd), []).
Proof.
  unfold CommandHandler.emberAfClusterSpecificCommandParse, routed.
  destruct (direction cmd =? CommandHandler.uint8_t ZCL_DIRECTION_SERVER_TO_CLIENT),
    (emberAfContainsClientWithMfgCode _ _ _),
    (direction cmd =? CommandHandler.uint8_t ZCL_DIRECTION_CLIENT_TO_SERVER),
    (emberAfContainsServerWithMfgCode _ _ _),
    (clusterId (apsFrame cmd) =? ZCL_WINDOW_COVERING_CLUSTER_ID); reflexivity.
Qed.
End MainController.

(** X6: the controller invokes a cluster callback only for a command that is
    client-to-server, addressed to an endpoint with the server side of
    its cluster, of the window-covering cluster, and not
    manufacturer-specific. *)
Theorem controller_invokes_only_routed `{Zcl} (cmd : EmberAfClusterCommand) :
  snd (CommandHandler.emberAfClusterSpecificCommandParse cmd) <> [] ->
  direction cmd = CommandHandler.uint8_t ZCL_DIRECTION_CLIENT_TO_SERVER
  /\ emberAfContainsServerWithMfgCode (destinationEndpoint (apsFrame cmd))
       (clusterId (apsFrame cmd)) (mfgCode cmd) = true
  /\ clusterId (apsFrame cmd) = ZCL_WINDOW_COVERING_CLUSTER_ID
  /\ mfgSpecific cmd = false.
Proof.
  rewrite controller_cases. destruct (routed cmd) eqn:Hr; [| intros Hne; contradiction].
  unfold routed in Hr. rewrite !andb_true_iff, !Z.eqb_eq in Hr.
  destruct Hr as [[[_ Hdir] Hsrv] Hcl]. intros Hne.
  repeat split; try assumption.
  destruct (mfgSpecific cmd) eqn:Hmfg; [| reflexivity].
  rewrite manufacturer_specific_never_handled_aux in Hne by assumption. contradiction.
Qed.

Lemma controller_invokes_only_routed_witness :
  let cmd := mkEmberAfClusterCommand (mkEmberApsFrame 258 1) [x01; x07; x02] 3 false 0 2 3 0 in
  snd (@CommandHandler.emberAfClusterSpecificCommandParse zcl_ids cmd) = [Stop]
  /\ direction cmd = 0 /\ clusterId (apsFrame cmd) = 258 /\ mfgSpecific cmd = false.
Proof.
  intros cmd. split; [reflexivity |].
  destruct (@controller_invokes_only_routed zcl_ids cmd) as (Hd & _ & Hc & Hm).
  - discriminate.
  - repeat split; assumption.
Defined.

(** X7: a command of another cluster, of another direction, or for an
    endpoint without the server is answered with UNSUPPORTED_CLUSTER
    (UNSUP_MANUF_CLUSTER_COMMAND when manufacturer-specific) and reaches
    no callback. *)
Theorem controller_rejects_unrouted `{Zcl} (cmd : EmberAfClusterCommand) :
  clusterId (apsFrame cmd) <> ZCL_WINDOW_COVERING_CLUSTER_ID
  \/ direction cmd <> CommandHandler.uint8_t ZCL_DIRECTION_CLIENT_TO_SERVER
  \/ emberAfContainsServerWithMfgCode (destinationEndpoint (apsFrame cmd))
       (clusterId (apsFrame cmd)) (mfgCode cmd) = false ->
  CommandHandler.emberAfClusterSpecificCommandParse cmd
  = (if mfgSpecific cmd then EMBER_ZCL_STATUS_UNSUP_MANUF_CLUSTER_COMMAND
     else EMBER_ZCL_STATUS_UNSUPPORTED_CLUSTER, []).
Proof.
  intros Hun. rewrite controller_cases.
  assert (Hr : routed cmd = false).
  { unfold routed. rewrite !andb_false_iff, !Z.eqb_neq. tauto. }
  rewrite Hr. destruct (mfgSpecific cmd); reflexivity.
Qed.

Lemma controller_rejects_unrouted_witness :
  @CommandHandler.emberAfClusterSpecificCommandParse zcl_ids
    (mkEmberAfClusterCommand (mkEmberApsFrame 6 1) [x01; x07; x02] 3 false 0 2 3 0)
  = (EMBER_ZCL_STATUS_UNSUPPORTED_CLUSTER, []).
Proof.
  apply (@controller_rejects_unrouted zcl_ids
    (mkEmberAfClusterCommand (mkEmberApsFrame 6 1) [x01; x07; x02] 3 false 0 2 3 0)).
  left. simpl. discriminate.
Defined.

(** X8: a manufacturer-specific command is never handled, whatever its
    cluster, direction, command id and buffer: the controller answers
    UNSUP_MANUF_CLUSTER_COMMAND and no callback is invoked. *)
Theorem controller_never_handles_manufacturer_specific `{Zcl}
    (cmd : EmberAfClusterCommand) :
  mfgSpecific cmd = true ->
  CommandHandler.emberAfClusterSpecificCommandParse cmd
  = (EMBER_ZCL_STATUS_UNSUP_MANUF_CLUSTER_COMMAND, []).
Proof.
  intros Hmfg. rewrite controller_cases. destruct (routed cmd).
  - apply manufacturer_specific_never_handled_aux, Hmfg.
  - rewrite Hmfg. reflexivity.
Qed.

Lemma controller_never_handles_manufacturer_specific_witness :
  @CommandHandler.emberAfClusterSpecificCommandParse zcl_ids
    (mkEmberAfClusterCommand (mkEmberApsFrame 258 1) [x05; x07; x02] 3 true 4098 2 3 0)
  = (EMBER_ZCL_STATUS_UNSUP_MANUF_CLUSTER_COMMAND, []).
Proof.
  apply (@controller_never_handles_manufacturer_specific zcl_ids). reflexivity.
Defined.

(** X9: when the two direction constants differ, a client-to-server command
    of the window-covering cluster, for an endpoint with the server, gets
    the answer of the window-covering parser and its callback. *)
Theorem controller_routes_to_cluster_parser `{Zcl} (cmd : EmberAfClusterCommand) :
  CommandHandler.uint8_t ZCL_DIRECTION_SERVER_TO_CLIENT
  <> CommandHandler.uint8_t ZCL_DIRECTION_CLIENT_TO_SERVER ->
  direction cmd = CommandHandler.uint8_t ZCL_DIRECTION_CLIENT_TO_SERVER ->
  emberAfContainsServerWithMfgCode (destinationEndpoint (apsFrame cmd))
    (clusterId (apsFrame cmd)) (mfgCode cmd) = true ->
  clusterId (apsFrame cmd) = ZCL_WINDOW_COVERING_CLUSTER_ID ->
  CommandHandler.emberAfClusterSpecificCommandParse cmd
  = CommandHandler.emberAfWindowCoveringClusterServerCommandParse cmd.
Proof.
  intros Hdirs Hdir Hsrv Hcl. rewrite controller_cases.
  assert (Hr : routed cmd = true).
  { unfold routed. rewrite Hsrv, Hcl, Hdir, !Z.eqb_refl.
    destruct (Z.eqb_spec (CommandHandler.uint8_t ZCL_DIRECTION_CLIENT_TO_SERVER)
                         (CommandHandler.uint8_t ZCL_DIRECTION_SERVER_TO_CLIENT))
      as [Heq | _]; [| reflexivity].
    exfalso. apply Hdirs. symmetry. exact Heq. }
  rewrite Hr. reflexivity.
Qed.

Lemma controller_routes_to_cluster_parser_witness :
  let cmd := mkEmberAfClusterCommand (mkEmberApsFrame 258 1)
               [x01; x07; x05; x4b] 4 false 0 5 3 0 in
  @CommandHandler.emberAfClusterSpecificCommandParse zcl_ids cmd
  = (EMBER_ZCL_STATUS_SUCCESS, [GoToLiftPercentage 75]).
Proof.
  intros cmd.
  rewrite (@controller_routes_to_cluster_parser zcl_ids cmd);
    [reflexivity | discriminate | reflexivity | reflexivity | reflexivity].
Defined.

(** ** More on the advertising parameters *)

Lemma GetMac_SetMac (p : Mdns.BaseAdvertisingParams) (mac : Mdns.ByteSpan) :
  Mdns.GetMac (Mdns.SetMac p mac) = take Mdns.kMaxMacSize mac.
Proof.
  unfold Mdns.GetMac, Mdns.SetMac. simpl.
  rewrite memcpy_prefix by lia.
  destruct (Nat.min_spec (length mac) Mdns.kMaxMacSize) as [[Hlt ->] | [Hge ->]].
  - rewrite !take_ge by lia. reflexivity.
  - reflexivity.
Qed.

Lemma base_apply_well_formed (p : Mdns.BaseAdvertisingParams) (s : Mdns.BaseSetter) :
  Mdns.well_formed p -> Mdns.well_formed (Mdns.base_apply p s).
Proof.
  destruct s as [port | enable | mac]; simpl; [tauto | tauto |].
  apply SetMac_well_formed.
Qed.

Lemma initial_well_formed (CHIP_PORT : Z) : Mdns.well_formed (Mdns.initial CHIP_PORT).
Proof. split; [reflexivity | simpl; lia]. Qed.

(** X10: whatever chain of setters is applied to a newly constructed object,
    the MAC storage keeps its eight bytes and the recorded length never
    exceeds them: the span [GetMac] returns lies inside the array and has
    the recorded length. *)
Theorem setter_chain_keeps_mac_in_bounds (CHIP_PORT : Z) (chain : list Mdns.BaseSetter) :
  let p := fold_left Mdns.base_apply chain (Mdns.initial CHIP_PORT) in
  length (Mdns.mMacStorage p) = 8%nat
  /\ (Mdns.mMacLength p <= 8)%nat
  /\ length (Mdns.GetMac p) = Mdns.mMacLength p.
Proof.
  intros p.
  assert (Hwf : Mdns.well_formed p).
  { subst p. generalize (initial_well_formed CHIP_PORT).
    generalize (Mdns.initial CHIP_PORT) as q.
    induction chain as [| s chain IH]; intros q Hq; simpl; [exact Hq |].
    apply IH, base_apply_well_formed, Hq. }
  destruct Hwf as [Hlen Hmac]. unfold Mdns.kMaxMacSize in *.
  repeat split; try assumption.
  unfold Mdns.GetMac. rewrite length_take. lia.
Qed.

(** X11: [GetMac] gives back the very span passed to [SetMac] exactly when
    that span has at most eight bytes. *)
Theorem mac_round_trip_iff_fits (p : Mdns.BaseAdvertisingParams) (mac : Mdns.ByteSpan) :
  Mdns.GetMac (Mdns.SetMac p mac) = mac <-> (length mac <= 8)%nat.
Proof.
  rewrite GetMac_SetMac. unfold Mdns.kMaxMacSize. split.
  - intros Heq. apply (f_equal length) in Heq. rewrite length_take in Heq. lia.
  - intros Hle. apply take_ge. exact Hle.
Qed.

Section CommissionChains.
Import Mdns.

Lemma commission_get_written (p : CommissionAdvertisingParameters) (s : Commission.Setter) :
  Commission.get (Commission.reader s) (Commission.apply p s) = Commission.written s.
Proof.
  destruct s as [[port | enable | mac] | d | d | v | v | v | v | m]; try reflexivity.
  simpl. f_equal. apply GetMac_SetMac.
Qed.

Lemma commission_get_other (p : CommissionAdvertisingParameters)
    (s : Commission.Setter) (g : Commission.Getter) :
  Commission.reader s <> g ->
  Commission.get g (Commission.apply p s) = Commission.get g p.
Proof.
  destruct s as [[port | enable | mac] | d | d | v | v | v | v | m], g;
    intros Hne; try reflexivity; contradiction.
Qed.

Lemma commission_chain_untouched (chain : list Commission.Setter)
    (p : CommissionAdvertisingParameters) (g : Commission.Getter) :
  Forall (fun s => Commission.reader s <> g) chain ->
  Commission.get g (fold_left Commission.apply chain p) = Commission.get g p.
Proof.
  revert p. induction chain as [| s chain IH]; intros p Hall; simpl; [reflexivity |].
  apply Forall_cons in Hall as [Hs Hrest].
  rewrite IH by exact Hrest. apply commission_get_other, Hs.
Qed.
End CommissionChains.

(** X12: in a chain of setter calls on commissioning parameters (the setters
    of the base class included), a getter whose setter does not occur in
    the chain returns what it returned before the chain: no setter
    writes a member that is not its own. *)
Theorem commission_setters_do_not_interfere
    (chain : list Mdns.Commission.Setter)
    (p : Mdns.CommissionAdvertisingParameters) (g : Mdns.Commission.Getter) :
  Forall (fun s => Mdns.Commission.reader s <> g) chain ->
  Mdns.Commission.get g (fold_left Mdns.Commission.apply chain p)
  = Mdns.Commission.get g p.
Proof.
  revert p. induction chain as [| s chain IH]; intros p Hall; simpl; [reflexivity |].
  inversion Hall as [| s' chain' Hs Hrest]; subst.
  rewrite IH by exact Hrest.
  apply commission_get_other. exact Hs.
Qed.

Lemma commission_setters_do_not_interfere_witness :
  Mdns.Commission.get Mdns.Commission.AskVendorId
    (fold_left Mdns.Commission.apply
       [Mdns.Commission.DoSetProductId (Some 2);
        Mdns.Commission.OnBase (Mdns.DoSetMac [x01; x02]);
        Mdns.Commission.DoSetLongDiscrimininator 3840]
       (Mdns.Commission.SetVendorId (Mdns.Commission.initial 11097) (Some 9050)))
  = Mdns.Commission.VOptional (Some 9050).
Proof.
  apply (@commission_setters_do_not_interfere
    [Mdns.Commission.DoSetProductId (Some 2);
     Mdns.Commission.OnBase (Mdns.DoSetMac [x01; x02]);
     Mdns.Commission.DoSetLongDiscrimininator 3840]
    (Mdns.Commission.SetVendorId (Mdns.Commission.initial 11097) (Some 9050))
    Mdns.Commission.AskVendorId).
  repeat constructor; discriminate.
Defined.

(** X13: in such a chain the last call of a setter decides what its getter
    returns: the argument of that call (for [SetMac], its first eight
    bytes), whatever was set before and whatever other setters follow. *)
Theorem commission_last_setter_wins
    (before after : list Mdns.Commission.Setter) (s : Mdns.Commission.Setter)
    (p : Mdns.CommissionAdvertisingParameters) :
  Forall (fun s' => Mdns.Commission.reader s' <> Mdns.Commission.reader s) after ->
  Mdns.Commission.get (Mdns.Commission.reader s)
    (fold_left Mdns.Commission.apply (before ++ s :: after) p)
  = Mdns.Commission.written s.
Proof.
  intros Hafter. rewrite fold_left_app. simpl.
  rewrite commission_chain_untouched by exact Hafter.
  apply commission_get_written.
Qed.

Lemma commission_last_setter_wins_witness :
  Mdns.Commission.get Mdns.Commission.AskMac
    (fold_left Mdns.Commission.apply
       ([Mdns.Commission.OnBase (Mdns.DoSetMac [xaa; xbb; xcc])]
        ++ Mdns.Commission.OnBase
             (Mdns.DoSetMac [x01; x02; x03; x04; x05; x06; x07; x08; x09])
        :: [Mdns.Commission.OnBase (Mdns.DoSetPort 5540);
            Mdns.Commission.DoSetPairingHint (Some 33)])
       (Mdns.Commission.initial 11097))
  = Mdns.Commission.VBytes [x01; x02; x03; x04; x05; x06; x07; x08].
Proof.
  apply (@commission_last_setter_wins
    [Mdns.Commission.OnBase (Mdns.DoSetMac [xaa; xbb; xcc])]
    [Mdns.Commission.OnBase (Mdns.DoSetPort 5540);
     Mdns.Commission.DoSetPairingHint (Some 33)]
    (Mdns.Commission.OnBase
       (Mdns.DoSetMac [x01; x02; x03; x04; x05; x06; x07; x08; x09]))).
  repeat constructor; discriminate.
Defined.

Section OperationalChains.
Import Mdns.
Context {PeerId : Type}.

Lemma operational_apply_intervals (p : OperationalAdvertisingParameters PeerId)
    (s : Operational.Setter) :
  Operational.sets_intervals s = false ->
  Operational.GetCRMPRetryIntervals (Operational.apply p s)
  = Operational.GetCRMPRetryIntervals p.
Proof. destruct s; [reflexivity | reflexivity | discriminate]. Qed.

Lemma operational_apply_peer (p : OperationalAdvertisingParameters PeerId)
    (s : Operational.Setter) :
  Operational.sets_peer s = false ->
  Operational.GetPeerId (Operational.apply p s) = Operational.GetPeerId p.
Proof. destruct s; [reflexivity | discriminate | reflexivity]. Qed.
End OperationalChains.

(** X14: on operational parameters, [GetCRMPRetryIntervals] returns the idle
    and the active interval in the order [SetCRMPRetryIntervals] took
    them, and [GetPeerId] the peer id set, whatever other setters (those
    of the base class included) are called afterwards. *)
Theorem operational_values_survive_chain {PeerId : Type}
    (chain : list (@Mdns.Operational.Setter PeerId))
    (p : Mdns.OperationalAdvertisingParameters PeerId)
    (intervalIdle intervalActive : Z) (peerId : PeerId) :
  (Forall (fun s => Mdns.Operational.sets_intervals s = false) chain ->
   Mdns.Operational.GetCRMPRetryIntervals
     (fold_left Mdns.Operational.apply chain
        (Mdns.Operational.SetCRMPRetryIntervals p intervalIdle intervalActive))
   = (intervalIdle, intervalActive))
  /\ (Forall (fun s => Mdns.Operational.sets_peer s = false) chain ->
      Mdns.Operational.GetPeerId
        (fold_left Mdns.Operational.apply chain (Mdns.Operational.SetPeerId p peerId))
      = peerId).
Proof.
  split; intros Hall.
  - change (intervalIdle, intervalActive)
      with (Mdns.Operational.GetCRMPRetryIntervals
              (Mdns.Operational.SetCRMPRetryIntervals p intervalIdle intervalActive)).
    generalize (Mdns.Operational.SetCRMPRetryIntervals p intervalIdle intervalActive) as q.
    induction Hall as [| s chain Hs Hrest IH]; intros q; simpl; [reflexivity |].
    rewrite IH. apply operational_apply_intervals, Hs.
  - change peerId
      with (Mdns.Operational.GetPeerId (Mdns.Operational.SetPeerId p peerId)) at 2.
    generalize (Mdns.Operational.SetPeerId p peerId) as q.
    induction Hall as [| s chain Hs Hrest IH]; intros q; simpl; [reflexivity |].
    rewrite IH. apply operational_apply_peer, Hs.
Qed.

Lemma operational_values_survive_chain_witness :
  Mdns.Operational.GetCRMPRetryIntervals
    (fold_left Mdns.Operational.apply
       [Mdns.Operational.DoSetPeerId 7%nat;
        Mdns.Operational.OnBase (Mdns.DoSetPort 5540);
        Mdns.Operational.OnBase (Mdns.DoSetMac [x01; x02])]
       (Mdns.Operational.SetCRMPRetryIntervals
          (Mdns.mkOperationalAdvertisingParameters (Mdns.initial 11097) 0%nat 0 0)
          5000 300))
  = (5000, 300).
Proof.
  apply (proj1 (@operational_values_survive_chain nat
    [Mdns.Operational.DoSetPeerId 7%nat;
     Mdns.Operational.OnBase (Mdns.DoSetPort 5540);
     Mdns.Operational.OnBase (Mdns.DoSetMac [x01; x02])]
    (Mdns.mkOperationalAdvertisingParameters (Mdns.initial 11097) 0%nat 0 0)
    5000 300 0%nat)).
  repeat constructor.
Defined.

(** ** More on session handles *)

(** X15: [operator==] is an equivalence: reflexive, symmetric and transitive,
    as a key comparison has to be. *)
Theorem SecureSessionHandle_eq_equivalence (a b c : SecureSessionHandle) :
  Session.eq_op a a = true
  /\ Session.eq_op a b = Session.eq_op b a
  /\ (Session.eq_op a b = true -> Session.eq_op b c = true -> Session.eq_op a c = true).
Proof.
  split; [apply eq_op_refl |]. split.
  - unfold Session.eq_op.
    rewrite (Z.eqb_sym (mPeerNodeId a)), (Z.eqb_sym (mPeerKeyId a)), (Z.eqb_sym (mAdmin a)).
    reflexivity.
  - rewrite !eq_op_true. intros (Hn & Hk & Ha) (Hn' & Hk' & Ha').
    repeat split; congruence.
Qed.

Lemma SecureSessionHandle_eq_equivalence_witness :
  Session.eq_op (mkSecureSessionHandle 7 1 3) (mkSecureSessionHandle 7 1 3) = true.
Proof.
  apply (proj2 (proj2 (SecureSessionHandle_eq_equivalence
    (mkSecureSessionHandle 7 1 3) (mkSecureSessionHandle 7 1 3)
    (mkSecureSessionHandle 7 1 3))));
    reflexivity.
Defined.

(** X16: setting the admin id changes the identity of a handle: after
    [SetAdminId a] the handle still compares equal to what it was exactly
    when [a] is the admin id it already had, and equal to another handle
    exactly when that one has the same peer and admin [a].  A handle has
    an admin afterwards exactly when [a] is not the undefined id. *)
Theorem SetAdminId_changes_identity `{Platform} (h other : SecureSessionHandle) (a : Z) :
  (Session.eq_op (Session.SetAdminId h a) h = true <-> a = Session.GetAdminId h)
  /\ (Session.eq_op (Session.SetAdminId h a) other = true
      <-> Session.GetPeerNodeId h = Session.GetPeerNodeId other
          /\ Session.GetPeerKeyId h = Session.GetPeerKeyId other
          /\ Session.GetAdminId other = a)
  /\ (Session.HasAdminId (Session.SetAdminId h a) = true <-> a <> kUndefinedAdminId).
Proof.
  rewrite !eq_op_true.
  unfold Session.SetAdminId, Session.GetAdminId, Session.GetPeerNodeId,
    Session.GetPeerKeyId, Session.HasAdminId. simpl.
  rewrite negb_true_iff, Z.eqb_neq.
  repeat split; intuition congruence.
Qed.

(** ** More on the allocation of message buffers *)

(** X17: [New] never asks the system allocator for less than the footer or
    for more than [PacketBuffer::kMaxSize]: its result is the same under
    two allocators that agree on the sizes in between. *)
Theorem New_requests_within_limit `{Platform} (A1 A2 : Allocator) (n : Z) :
  platform_ok -> 0 <= n <= SIZE_MAX ->
  (forall sz, MessagePacketBuffer.kMaxFooterSize <= sz <= PacketBuffer_kMaxSize ->
              @PacketBufferHandle_New A1 sz = @PacketBufferHandle_New A2 sz) ->
  @MessagePacketBuffer.New _ A1 n = @MessagePacketBuffer.New _ A2 n.
Proof.
  intros Hok [Hn0 Hn] Hagree.
  destruct (Z_le_gt_dec n (PacketBuffer_kMaxSize - MessagePacketBuffer.kMaxFooterSize))
    as [Hle | Hgt].
  - rewrite (@New_allocates _ A1), (@New_allocates _ A2) by assumption.
    apply Hagree. lia.
  - rewrite (@New_rejects _ A1), (@New_rejects _ A2) by (assumption || lia).
    reflexivity.
Qed.

(** An allocator that serves requests up to a given size. *)
Definition bounded_allocator (limit : Z) : Allocator := {|
  PacketBufferHandle_New sz :=
    if sz <=? limit then Some (mkPacketBuffer sz 0 [] None) else None;
  PacketBufferHandle_NewWithData data sz extra :=
    if sz + extra <=? limit then Some (mkPacketBuffer (sz + extra) 0 data None) else None
|}.

Lemma New_requests_within_limit_witness :
  @MessagePacketBuffer.New linux_platform (bounded_allocator 1280) 1264
  = @MessagePacketBuffer.New linux_platform exact_allocator 1264.
Proof.
  apply (@New_requests_within_limit linux_platform (bounded_allocator 1280)
           exact_allocator 1264 linux_platform_ok).
  - unfold SIZE_MAX. lia.
  - intros sz [_ Hsz]. simpl in *.
    destruct (Z.leb_spec sz 1280); [reflexivity | lia].
Defined.

(** X18: the requests that fail whatever memory is available are exactly
    those above [kMaxSize - kMaxFooterSize]. *)
Theorem New_fails_regardless_iff_too_large `{Platform} (n : Z) :
  platform_ok -> 0 <= n <= SIZE_MAX ->
  (forall A : Allocator, @MessagePacketBuffer.New _ A n = None)
  <-> n > PacketBuffer_kMaxSize - MessagePacketBuffer.kMaxFooterSize.
Proof.
  intros Hok [Hn0 Hn]. split.
  - intros Hall.
    destruct (Z_le_gt_dec n (PacketBuffer_kMaxSize - MessagePacketBuffer.kMaxFooterSize))
      as [Hle | Hgt]; [| exact Hgt].
    specialize (Hall exact_allocator).
    rewrite (@New_allocates _ exact_allocator) in Hall by assumption.
    discriminate Hall.
  - intros Hgt A. apply New_rejects; [assumption | lia].
Qed.

Lemma New_fails_regardless_iff_too_large_witness :
  @MessagePacketBuffer.New linux_platform exact_allocator 1265 = None.
Proof.
  assert (Hn : 0 <= 1265 <= SIZE_MAX) by (unfold SIZE_MAX; lia).
  apply (proj2 (@New_fails_regardless_iff_too_large linux_platform 1265
                  linux_platform_ok Hn)).
  simpl. lia.
Defined.
